(** * Crawler: a shallow embedding of [src/crawler.ts]

    The abstract class [Crawler] wraps a browser-automation library.  Every
    interesting effect happens outside the class: in the browser, in the
    file system, on the console.  The embedding therefore threads a [World]
    (the object's fields, the logger, the console and the trace of library
    calls issued so far) through a state-and-exception monad, and takes the
    behaviour of the libraries as an environment [Env] that answers each
    call from the history of calls made before it. *)

From Stdlib Require Import ZArith List String Ascii Bool Lia.
From Stdlib Require Import DecimalString.
Import ListNotations.

Open Scope string_scope.
Open Scope Z_scope.
Open Scope list_scope.

(** ** Values of the host language *)

(** A thrown JavaScript value.  [TypeError] is what the runtime raises when a
    method is read from [undefined]; [LibError] is an error raised by a
    library call. *)
Inductive Error : Type :=
| TypeError (msg : string)
| LibError (msg : string).

(** The completion of an awaited computation. *)
Inductive Outcome (A : Type) : Type :=
| Return (a : A)
| Throw (e : Error).
Arguments Return {A} a.
Arguments Throw {A} e.

(** Handles to objects that live in the libraries. *)
Definition Browser := nat.
Definition Page := nat.
Definition Target := nat.
Definition Session := nat.
Definition ElementHandle := nat.

(** [ClickOptions] of the browser-automation library. *)
Record ClickOptions : Type := {
  click_delay : option Z;
  click_button : option string;
  click_count : option Z
}.

(** The [waitUntil] option of [page.waitForNavigation]. *)
Inductive WaitUntil : Type :=
| domcontentloaded
| load.

(** Template-literal rendering of a number and of a boolean. *)
Definition string_of_Z (z : Z) : string :=
  NilZero.string_of_int (Z.to_int z).

Definition string_of_bool (b : bool) : string :=
  if b then "true" else "false".

(** [String.prototype.endsWith]. *)
Definition endsWith (s suffix : string) : bool :=
  let n := String.length s in
  let k := String.length suffix in
  if (k <=? n)%nat then String.eqb (substring (n - k) k s) suffix else false.

(** ** The library boundary *)

(** The calls the class makes into the browser-automation library and the
    file-system module, indexed by the type of what they return.  Each of
    them may throw (or, for the asynchronous ones, reject). *)
Inductive Call : Type -> Type :=
| puppeteer_launch (headless : bool) (executablePath : option string)
    (args : list string) : Call Browser
| browser_pages (b : Browser) : Call (list Page)
| browser_close (b : Browser) : Call unit
| page_target (p : Page) : Call Target
| target_createCDPSession (t : Target) : Call Session
| client_send (s : Session) (method : string)
    (params : list (string * string)) : Call unit
| page_content (p : Page) : Call string
| page_goto (p : Page) (url : string) : Call unit
| page_waitForNavigation (p : Page) (waitUntil : WaitUntil) : Call unit
| page_waitForSelector (p : Page) (selector : string) (timeout : Z)
    : Call (option ElementHandle)
| page_click (p : Page) (selector : string) (options : option ClickOptions)
    : Call unit
| page_type (p : Page) (selector text : string) (options : option Z)
    : Call unit
| page_waitForTimeout (p : Page) (milliseconds : Z) : Call unit
| page_evaluate_click (p : Page) (selector : string) : Call unit
| fs_mkdirSync (path : string) (recursive : bool) : Call unit
| fs_writeFileSync (path data : string) : Call unit
| fs_readdirSync (path : string) : Call (list string)
| fs_statSync_isDirectory (path : string) : Call bool
| fs_copyFileSync (src dest : string) : Call unit.

(** What the trace records: a library call, a test for the existence of a
    path (which never throws), or a plain timer sleep (which never
    rejects). *)
Inductive Event : Type :=
| Ev {T : Type} (c : Call T)
| EvExistsSync (path : string)
| EvSleep (milliseconds : Z).

Definition Trace := list Event.

(** The environment: the platform, the module directory, path resolution,
    the answer of the libraries to each call given the calls issued before
    it, and, for two promises awaited together that both reject, whether
    the first of them rejects first. *)
Record Env : Type := {
  os_platform : string;
  dirname : string;
  path_resolve : list string -> string;
  fs_existsSync : Trace -> string -> bool;
  respond : forall T : Type, Trace -> Call T -> Outcome T;
  rejects_first : Trace -> bool
}.
Arguments respond e {T} _ _.

(** ** The object and the world *)

(** The fields of a [Crawler] (lines 10-15).  [page] is declared with a
    definite-assignment assertion and is [undefined] until [run] sets it. *)
Record Crawler : Type := {
  headless : bool;
  page : option Page;
  tmpDir : string;
  downloadDir : string;
  hasError : bool;
  errorDump : string
}.

Record World : Type := {
  this : Crawler;
  logger_level_debug : bool;
  log : list string;
  console : list string;
  trace : Trace
}.

Definition with_this (f : Crawler -> Crawler) (w : World) : World :=
  {| this := f (this w);
     logger_level_debug := logger_level_debug w;
     log := log w;
     console := console w;
     trace := trace w |}.

Definition with_trace (t : Trace) (w : World) : World :=
  {| this := this w;
     logger_level_debug := logger_level_debug w;
     log := log w;
     console := console w;
     trace := t |}.

Definition set_page (p : option Page) (c : Crawler) : Crawler :=
  {| headless := headless c; page := p; tmpDir := tmpDir c;
     downloadDir := downloadDir c; hasError := hasError c;
     errorDump := errorDump c |}.

Definition set_tmpDir (d : string) (c : Crawler) : Crawler :=
  {| headless := headless c; page := page c; tmpDir := d;
     downloadDir := downloadDir c; hasError := hasError c;
     errorDump := errorDump c |}.

(** ** The monad of awaited computations *)

Definition M (A : Type) : Type := Env -> World -> Outcome A * World.

Definition ret {A : Type} (a : A) : M A := fun _ w => (Return a, w).

Definition throw {A : Type} (e : Error) : M A := fun _ w => (Throw e, w).

Definition bind {A B : Type} (m : M A) (k : A -> M B) : M B :=
  fun env w =>
    match m env w with
    | (Return a, w') => k a env w'
    | (Throw e, w') => (Throw e, w')
    end.

Declare Scope crawler_scope.
Delimit Scope crawler_scope with crawler.
Notation "x <- m ;; k" := (bind m (fun x => k))
  (at level 61, m at next level, right associativity) : crawler_scope.
Notation "m ;; k" := (bind m (fun _ => k))
  (at level 61, right associativity) : crawler_scope.
Open Scope crawler_scope.

(** [try { body } catch (e) { handler e }] *)
Definition try_catch {A : Type} (body : M A) (handler : Error -> M A) : M A :=
  fun env w =>
    match body env w with
    | (Return a, w') => (Return a, w')
    | (Throw e, w') => handler e env w'
    end.

(** [try { body } finally { cleanup }]: the cleanup runs on both
    completions, and an error it raises replaces the completion of the
    body. *)
Definition try_finally {A : Type} (body : M A) (cleanup : M unit) : M A :=
  fun env w =>
    let (r, w') := body env w in
    match cleanup env w' with
    | (Return _, w'') => (r, w'')
    | (Throw e, w'') => (Throw e, w'')
    end.

(** An [if] statement without [else]. *)
Definition when (b : bool) (m : M unit) : M unit :=
  if b then m else ret tt.

(** Reading and writing the world. *)
Definition get_this : M Crawler := fun _ w => (Return (this w), w).

Definition modify_this (f : Crawler -> Crawler) : M unit :=
  fun _ w => (Return tt, with_this f w).

Definition get_env {A : Type} (f : Env -> A) : M A :=
  fun env w => (Return (f env), w).

(** Issuing a library call: the environment answers from the trace so far,
    and the call is appended to the trace. *)
Definition call {T : Type} (c : Call T) : M T :=
  fun env w => (respond env (trace w) c, with_trace (trace w ++ [Ev c]) w).

(** [fs.existsSync] *)
Definition existsSync (path : string) : M bool :=
  fun env w => (Return (fs_existsSync env (trace w) path),
                with_trace (trace w ++ [EvExistsSync path]) w).

(** [await new Promise(r => setTimeout(r, ms))] *)
Definition sleep (milliseconds : Z) : M unit :=
  fun _ w => (Return tt, with_trace (trace w ++ [EvSleep milliseconds]) w).

(** [logger.debug]: a message is kept only at level "debug". *)
Definition logged (msg : string) (w : World) : World :=
  {| this := this w;
     logger_level_debug := logger_level_debug w;
     log := if logger_level_debug w then log w ++ [msg] else log w;
     console := console w;
     trace := trace w |}.

Definition logger_debug (msg : string) : M unit :=
  fun _ w => (Return tt, logged msg w).

(** [console.log] *)
Definition printed (msg : string) (w : World) : World :=
  {| this := this w;
     logger_level_debug := logger_level_debug w;
     log := log w;
     console := console w ++ [msg];
     trace := trace w |}.

Definition console_log (msg : string) : M unit :=
  fun _ w => (Return tt, printed msg w).

(** Reading [this.page] in order to call a method on it: a [TypeError] when
    the field is still [undefined]. *)
Definition this_page : M Page :=
  fun _ w =>
    match page (this w) with
    | Some p => (Return p, w)
    | None => (Throw (TypeError "Cannot read properties of undefined"), w)
    end.

(** [Promise.all] of two calls: both are issued, in order, before either is
    awaited; the result is rejected with the error of the promise that
    rejects first. *)
Definition promise_all2 {A B : Type} (c1 : Call A) (c2 : Call B) : M unit :=
  fun env w =>
    let r1 := respond env (trace w) c1 in
    let w1 := with_trace (trace w ++ [Ev c1]) w in
    let r2 := respond env (trace w1) c2 in
    let w2 := with_trace (trace w1 ++ [Ev c2]) w1 in
    match r1, r2 with
    | Return _, Return _ => (Return tt, w2)
    | Throw e, Return _ => (Throw e, w2)
    | Return _, Throw e => (Throw e, w2)
    | Throw e1, Throw e2 =>
        (Throw (if rejects_first env (trace w) then e1 else e2), w2)
    end.

(** Truthiness of a string, and of a string that may be [undefined]. *)
Definition truthy (s : string) : bool := negb (String.eqb s "").

Definition falsy (v : option string) : bool :=
  match v with
  | None => true
  | Some s => String.eqb s ""
  end.

(** ** The class *)

(** One world continues another when its trace extends the other's: calls
    once issued stay issued. *)
Definition continues (w w' : World) : Prop :=
  exists calls, trace w' = trace w ++ calls.

(** The abstract method [crawl] (line 191), supplied by each subclass.  It
    may do anything to the object and the libraries, but it cannot undo the
    history of calls. *)
Class Crawl : Type := {
  crawl : M unit;
  crawl_history : forall env w, continues w (snd (crawl env w))
}.

(** The constructor (lines 17-21), on top of the field initialisers
    (lines 10-15).  The logger is a module-level object, so its level is
    part of the world. *)
Definition new_Crawler (debug headless : bool) (downloadDir : string)
    (w : World) : World :=
  {| this := {| headless := headless;
                page := None;
                tmpDir := "";
                downloadDir := downloadDir;
                hasError := false;
                errorDump := if debug then "error.html" else "" |};
     logger_level_debug := debug;
     log := log w;
     console := console w;
     trace := trace w |}.

(** The executable chosen for the platform (lines 26-34). *)
Definition chrome_path (platform : string) : option string :=
  if String.eqb platform "linux" then
    Some "/usr/bin/google-chrome"
  else if String.eqb platform "win32" then
    Some "C:\Program Files (x86)\Google\Chrome\Application\chrome.exe"
  else if String.eqb platform "darwin" then
    Some "/Applications/Google Chrome.app/Contents/MacOS/Google Chrome"
  else None.

Definition launch_args : list string :=
  ["--no-sandbox"; "--disable-setuid-sandbox"].

(** [waitForTimeout] (lines 139-143). *)
Definition waitForTimeout (milliseconds : Z) : M unit :=
  logger_debug ("waitForTimeout: " ++ string_of_Z milliseconds)%string ;;
  p <- this_page ;;
  call (page_waitForTimeout p milliseconds).

(** [goto] (lines 78-85). *)
Definition goto (url : string) : M unit :=
  logger_debug ("goto: " ++ url)%string ;;
  p <- this_page ;;
  promise_all2 (page_goto p url) (page_waitForNavigation p domcontentloaded).

(** [exists] (lines 87-99); the name is reserved here. *)
Definition exists_ (selector : string) : M bool :=
  logger_debug ("exists: " ++ selector)%string ;;
  waitForTimeout 1000 ;;
  try_catch
    (p <- this_page ;;
     call (page_waitForSelector p selector 5000) ;;
     logger_debug "  -> true" ;;
     ret true)
    (fun _ =>
       logger_debug "  -> false" ;;
       ret false).

(** [click] (lines 101-109). *)
Definition click (selector : string) (options : option ClickOptions)
    : M unit :=
  logger_debug ("click: " ++ selector)%string ;;
  waitForTimeout 1000 ;;
  p <- this_page ;;
  promise_all2 (page_click p selector options) (page_waitForNavigation p load).

(** [type] (lines 111-116); [options] is the optional [{ delay }]. *)
Definition type (selector text : string) (options : option Z) : M unit :=
  logger_debug ("type: " ++ selector ++ " => " ++ text)%string ;;
  waitForTimeout 1000 ;;
  p <- this_page ;;
  call (page_type p selector text options).

(** [waitForSelector] (lines 145-149). *)
Definition waitForSelector (selector : string) : M (option ElementHandle) :=
  logger_debug ("waitForSelector: " ++ selector)%string ;;
  p <- this_page ;;
  call (page_waitForSelector p selector 5000).

(** [waitAndClick] (lines 151-160); the function evaluated in the page
    clicks the element when the selector matches one. *)
Definition waitAndClick (selector : string) : M unit :=
  logger_debug ("waitAndClick: " ++ selector)%string ;;
  p <- this_page ;;
  call (page_waitForSelector p selector 5000) ;;
  p' <- this_page ;;
  call (page_evaluate_click p' selector).

(** [debug] (lines 74-76). *)
Definition debug (message : string) (args : list string) : M unit :=
  logger_debug (String.concat " " (message :: args)).

(** *** [run] (lines 23-72) *)

(** Lines 24-42: the browser is launched. *)
Definition launch_browser : M Browser :=
  self <- get_this ;;
  logger_debug ("Run crawler: headless=" ++ string_of_bool (headless self))%string ;;
  platform <- get_env os_platform ;;
  let chrome := chrome_path platform in
  call (puppeteer_launch (headless self) chrome launch_args).

(** Lines 44-55: the tab is recorded, the staging directory is created and
    downloads are redirected to it. *)
Definition prepare_downloads (browser : Browser) : M unit :=
  pages <- call (browser_pages browser) ;;
  modify_this (set_page (nth_error pages 0)) ;;
  resolve <- get_env path_resolve ;;
  here <- get_env dirname ;;
  modify_this (set_tmpDir (resolve [here; "temp"])) ;;
  self <- get_this ;;
  call (fs_mkdirSync (tmpDir self) false) ;;
  let _tempDir := resolve [tmpDir self] in
  logger_debug ("temDir: " ++ _tempDir)%string ;;
  p <- this_page ;;
  target <- call (page_target p) ;;
  client <- call (target_createCDPSession target) ;;
  call (client_send client "Page.setDownloadBehavior"
          [("behavior", "allow"); ("downloadPath", _tempDir)]).

(** Lines 24-55: everything before the [try] statement. *)
Definition run_setup : M Browser :=
  browser <- launch_browser ;;
  prepare_downloads browser ;;
  ret browser.

(** Lines 61-68: the [catch] clause. *)
Definition run_catch (e : Error) : M unit :=
  self <- get_this ;;
  (if truthy (errorDump self) then
     p <- this_page ;;
     markup <- call (page_content p) ;;
     call (fs_writeFileSync (errorDump self) markup) ;;
     self' <- get_this ;;
     console_log ("Current DOM has been saved at " ++ errorDump self')%string
   else ret tt) ;;
  throw e.

(** Lines 58-59: the body of the [try] block. *)
Definition crawl_step `{Crawl} : M unit :=
  logger_debug "Start crawl" ;;
  crawl.

(** Lines 57-71: the [try] / [catch] / [finally] statement. *)
Definition run_guarded `{Crawl} (browser : Browser) : M unit :=
  try_finally
    (try_catch crawl_step run_catch)
    (call (browser_close browser)).

Definition run `{Crawl} : M unit :=
  browser <- run_setup ;;
  run_guarded browser.

(** *** [waitForDownload] (lines 162-189) *)

(** The second half of the loop condition (line 171): there is no first
    entry yet, or it carries the suffix of a download in progress. *)
Definition pending (downloadFile : option string) : bool :=
  falsy downloadFile ||
  match downloadFile with
  | Some f => endsWith f ".crdownload"
  | None => false
  end.

(** The condition of the [do ... while] loop (line 171). *)
Definition still_waiting (elapsed timeout : Z) (downloadFile : option string)
    : bool :=
  (elapsed <? timeout) && pending downloadFile.

(** The [do ... while] loop of lines 167-171, for a timeout in whole
    milliseconds.  [fuel] bounds the number of iterations; [None] is
    returned only when it runs out. *)
Fixpoint poll (fuel : nat) (timeout elapsed : Z)
    : M (option (option string)) :=
  match fuel with
  | O => ret None
  | S fuel' =>
      sleep 100 ;;
      let elapsed := elapsed + 100 in
      self <- get_this ;;
      names <- call (fs_readdirSync (tmpDir self)) ;;
      let downloadFile := nth_error names 0 in
      if still_waiting elapsed timeout downloadFile
      then poll fuel' timeout elapsed
      else ret (Some downloadFile)
  end.

(** Lines 173-188: what follows the loop, for the [downloadFile] it left. *)
Definition deliver_download (downloadFile : option string)
    : M (option string) :=
  match downloadFile with
  | None => ret None
  | Some name =>
      if falsy downloadFile then ret None
      else
        self <- get_this ;;
        present <- existsSync (downloadDir self) ;;
        missing <- (if negb present then ret true
                    else
                      isDirectory <- call (fs_statSync_isDirectory (downloadDir self)) ;;
                      ret (negb isDirectory)) ;;
        when missing (call (fs_mkdirSync (downloadDir self) true)) ;;
        resolve <- get_env path_resolve ;;
        let downloadPath := resolve [downloadDir self; name] in
        call (fs_copyFileSync (resolve [tmpDir self; name]) downloadPath) ;;
        ret (Some downloadPath)
  end.

Definition waitForDownload_fuel (fuel : nat) (timeout : Z)
    : M (option (option string)) :=
  logger_debug ("waitForDownload: timeout=" ++ string_of_Z timeout)%string ;;
  r <- poll fuel timeout 0 ;;
  match r with
  | None => ret None
  | Some downloadFile =>
      path <- deliver_download downloadFile ;;
      ret (Some path)
  end.

(** Iterations that always suffice: after [k] of them [elapsed] is [100 * k],
    and the loop goes on only while [elapsed < timeout]. *)
Definition poll_bound (timeout : Z) : nat := S (Z.to_nat (timeout / 100)).

(** The method itself; [timeout] defaults to 5000.  The outer [None] stands
    for a loop that is still running when the fuel is used up, which
    [poll_bound] rules out; the inner one is [undefined]. *)
Definition waitForDownload (timeout : option Z)
    : M (option (option string)) :=
  let timeout := match timeout with Some t => t | None => 5000 end in
  waitForDownload_fuel (poll_bound timeout) timeout.

(** *** [readUserInput] (lines 118-137) *)

(** The state the call leaves behind: the pending timer, the line reader
    with its prompt, and the promise that the two callbacks settle. *)
Record Prompt : Type := {
  timer : option Z;
  stdoutMuted : bool;
  masked : bool;
  closed : bool;
  output : list string;
  settled : option string
}.

(** What the event loop can deliver afterwards: the timer firing, a line
    typed by the user, or the line reader echoing [s]. *)
Inductive InputEvent : Type :=
| TimerFires
| Answer (answer : string)
| WriteToOutput (s : string).

(** [resolve]: a promise is settled once, later calls do nothing. *)
Definition resolve (v : string) (p : Prompt) : Prompt :=
  match settled p with
  | Some _ => p
  | None =>
      {| timer := timer p; stdoutMuted := stdoutMuted p; masked := masked p;
         closed := closed p; output := output p; settled := Some v |}
  end.

Definition readline_close (p : Prompt) : Prompt :=
  {| timer := timer p; stdoutMuted := stdoutMuted p; masked := masked p;
     closed := true; output := output p; settled := settled p |}.

Definition timer_done (p : Prompt) : Prompt :=
  {| timer := None; stdoutMuted := stdoutMuted p; masked := masked p;
     closed := closed p; output := output p; settled := settled p |}.

(** The class [\w] of regular expressions, and [/\w/.test]. *)
Definition word_char (c : ascii) : bool :=
  let n := nat_of_ascii c in
  ((48 <=? n) && (n <=? 57) || (65 <=? n) && (n <=? 90) ||
   (97 <=? n) && (n <=? 122) || (n =? 95))%nat.

Fixpoint test_word (s : string) : bool :=
  match s with
  | EmptyString => false
  | String c s' => word_char c || test_word s'
  end.

(** [readline._writeToOutput] as replaced on line 135. *)
Definition writeToOutput (s : string) (p : Prompt) : Prompt :=
  {| timer := timer p; stdoutMuted := stdoutMuted p; masked := masked p;
     closed := closed p;
     output := output p ++ [if masked p && test_word s then "*" else s];
     settled := settled p |}.

Definition default_input_timeout : Z := 5 * 60 * 1000.

(** The call itself: it logs, arms the timer, opens the line reader and
    asks the question. *)
Definition readUserInput (question : string) (password : option bool)
    (timeout : option Z) : M Prompt :=
  let password := match password with Some b => b | None => false end in
  let timeout :=
    match timeout with Some t => t | None => default_input_timeout end in
  logger_debug ("readUserInput: " ++ question ++ ", password="
                ++ string_of_bool password ++ ", timeout="
                ++ string_of_Z timeout)%string ;;
  ret {| timer := Some timeout;
         stdoutMuted := password;
         masked := password;
         closed := false;
         output := [question];
         settled := None |}.

(** The timer callback (lines 123-126) and the answer callback
    (lines 130-133). *)
Definition on_timeout (p : Prompt) : M Prompt :=
  console_log "timeout" ;;
  ret (resolve "" (timer_done p)).

Definition on_answer (answer : string) (p : Prompt) : M Prompt :=
  ret (readline_close (resolve answer p)).

(** One turn of the event loop.  A timer fires once; a closed line reader
    calls nothing back. *)
Definition deliver (ev : InputEvent) (p : Prompt) : M Prompt :=
  match ev with
  | TimerFires =>
      match timer p with
      | Some _ => on_timeout p
      | None => ret p
      end
  | Answer answer => if closed p then ret p else on_answer answer p
  | WriteToOutput s => ret (writeToOutput s p)
  end.

Fixpoint deliver_all (evs : list InputEvent) (p : Prompt) : M Prompt :=
  match evs with
  | [] => ret p
  | ev :: evs' => p' <- deliver ev p ;; deliver_all evs' p'
  end.

(** ** Concrete worlds and environments, for evaluation *)

Definition empty_world : World :=
  {| this := {| headless := false; page := None; tmpDir := "";
                downloadDir := ""; hasError := false; errorDump := "" |};
     logger_level_debug := false;
     log := [];
     console := [];
     trace := [] |}.

(** Joining with slashes stands in for [path.resolve]. *)
Definition join_path (parts : list string) : string := String.concat "/" parts.

(** A library in which every call succeeds: one browser with one tab, a
    staging directory that lists [listing], a page whose markup is
    [markup]. *)
Definition answer_ok (listing : list string) (markup : string)
    (T : Type) (c : Call T) : Outcome T :=
  match c in Call T return Outcome T with
  | puppeteer_launch _ _ _ => Return 1%nat
  | browser_pages _ => Return [7%nat]
  | browser_close _ => Return tt
  | page_target _ => Return 2%nat
  | target_createCDPSession _ => Return 3%nat
  | client_send _ _ _ => Return tt
  | page_content _ => Return markup
  | page_goto _ _ => Return tt
  | page_waitForNavigation _ _ => Return tt
  | page_waitForSelector _ _ _ => Return (Some 4%nat)
  | page_click _ _ _ => Return tt
  | page_type _ _ _ _ => Return tt
  | page_waitForTimeout _ _ => Return tt
  | page_evaluate_click _ _ => Return tt
  | fs_mkdirSync _ _ => Return tt
  | fs_writeFileSync _ _ => Return tt
  | fs_readdirSync _ => Return listing
  | fs_statSync_isDirectory _ => Return true
  | fs_copyFileSync _ _ => Return tt
  end.

Definition env_ok (listing : list string) (markup : string) : Env :=
  {| os_platform := "linux";
     dirname := "/app";
     path_resolve := join_path;
     fs_existsSync := fun _ _ => true;
     respond := fun T _ c => answer_ok listing markup T c;
     rejects_first := fun _ => true |}.

(** The calls a computation adds to the trace. *)
Definition new_calls {A : Type} (m : M A) (env : Env) (w : World) : Trace :=
  skipn (List.length (trace w)) (trace (snd (m env w))).

Definition outcome {A : Type} (m : M A) (env : Env) (w : World) : Outcome A :=
  fst (m env w).

(** [issues m env w calls]: running [m] appends exactly [calls] to the
    trace. *)
Definition issues {A : Type} (m : M A) (env : Env) (w : World)
    (calls : Trace) : Prop :=
  trace (snd (m env w)) = trace w ++ calls.

(** Environments in which one kind of call fails and the others succeed. *)
Definition env_failing (fails : forall T : Type, Call T -> option Error)
    (listing : list string) (markup : string) : Env :=
  {| os_platform := "linux";
     dirname := "/app";
     path_resolve := join_path;
     fs_existsSync := fun _ _ => true;
     respond := fun T _ c =>
       match fails T c with
       | Some e => Throw e
       | None => answer_ok listing markup T c
       end;
     rejects_first := fun _ => true |}.

(** The staging directory is left over from an earlier run. *)
Definition staging_exists (T : Type) (c : Call T) : option Error :=
  match c with
  | fs_mkdirSync _ false => Some (LibError "EEXIST: file already exists, mkdir")
  | _ => None
  end.

(** The tab is gone when its markup is asked for. *)
Definition content_unavailable (T : Type) (c : Call T) : option Error :=
  match c with
  | page_content _ => Some (LibError "Target closed")
  | _ => None
  end.

(** The page refuses to wait. *)
Definition delay_rejected (T : Type) (c : Call T) : option Error :=
  match c with
  | page_waitForTimeout _ _ => Some (LibError "Session closed")
  | _ => None
  end.

(** No selector is ever found. *)
Definition selector_missing (T : Type) (c : Call T) : option Error :=
  match c with
  | page_waitForSelector _ _ _ => Some (LibError "TimeoutError: waiting for selector")
  | _ => None
  end.

(** Subclasses used for evaluation: a crawl that fails at once, and one
    that does nothing. *)
Definition crawl_fails : Crawl.
Proof.
  refine {| crawl := throw (LibError "navigation failed") |}.
  intros env w. exists []. symmetry. apply app_nil_r.
Defined.

Definition crawl_idle : Crawl.
Proof.
  refine {| crawl := ret tt |}.
  intros env w. exists []. symmetry. apply app_nil_r.
Defined.

(** A fresh object created in debug mode, and one whose [run] has set the
    tab and the staging directory. *)
Definition debug_world : World := new_Crawler true true "/downloads" empty_world.

Definition started_world : World :=
  with_this (set_tmpDir "/app/temp")
    (with_this (set_page (Some 7%nat)) debug_world).

(** ** Vocabulary of the properties *)

(** [preserves R m]: the world [m] leaves is related by [R] to the one it
    started from. *)
Definition preserves (R : World -> World -> Prop) {A : Type} (m : M A)
    : Prop :=
  forall env w, R w (snd (m env w)).

(** The events that close a browser. *)
Definition is_browser_close (ev : Event) : bool :=
  match ev with
  | Ev c => match c with browser_close _ => true | _ => false end
  | _ => false
  end.

(** The claim of the dump: whenever the crawl step throws with a non-empty
    dump path, [run] captures the markup at that moment, writes it to the
    dump path, and throws the error of the crawl step. *)
Definition dumps_and_rethrows (C : Crawl) (env : Env) (w : World) : Prop :=
  forall b w_s e w_c,
    run_setup env w = (Return b, w_s) ->
    crawl_step env w_s = (Throw e, w_c) ->
    truthy (errorDump (this w_c)) = true ->
    outcome run env w = Throw e /\
    exists p markup rest,
      page (this w_c) = Some p /\
      respond env (trace w_c) (page_content p) = Return markup /\
      trace (snd (run env w)) =
        trace w_c ++ Ev (page_content p)
                  :: Ev (fs_writeFileSync (errorDump (this w_c)) markup)
                  :: rest.

(** The claim of the flag: after [run], [hasError] tells whether the crawl
    step threw. *)
Definition hasError_records_failure (C : Crawl) (env : Env) (w : World)
    : Prop :=
  forall b w_s,
    run_setup env w = (Return b, w_s) ->
    hasError (this (snd (run env w))) =
      match fst (crawl_step env w_s) with
      | Throw _ => true
      | Return _ => false
      end.

(** Two worlds with the same error flag. *)
Definition same_hasError (w w' : World) : Prop :=
  hasError (this w') = hasError (this w).

(** [pre_delayed m env w]: the first call [m] makes on the page is the
    fixed one-second delay. *)
Definition pre_delayed {A : Type} (m : M A) (env : Env) (w : World) : Prop :=
  forall p,
    page (this w) = Some p ->
    exists rest, issues m env w (Ev (page_waitForTimeout p 1000) :: rest).

(** [delays_then m action]: [m] first waits one second on the page and,
    once that wait is over, makes the call [action]. *)
Definition delays_then {A : Type} (m : M A) (action : Page -> Event) : Prop :=
  forall env w p,
    page (this w) = Some p ->
    pre_delayed m env w /\
    (respond env (trace w) (page_waitForTimeout p 1000) = Return tt ->
     exists rest,
       issues m env w (Ev (page_waitForTimeout p 1000) :: action p :: rest)).

(** The one-second wait on the page. *)
Definition is_page_delay (ev : Event) : bool :=
  match ev with
  | Ev c => match c with
            | page_waitForTimeout _ ms => ms =? 1000
            | _ => false
            end
  | _ => false
  end.

(** The first event of a trace satisfies [f]. *)
Definition starts_with (f : Event -> bool) (t : Trace) : bool :=
  match t with
  | ev :: _ => f ev
  | [] => false
  end.

(** [m] completes with a value. *)
Definition never_raises {A : Type} (m : M A) (env : Env) (w : World) : Prop :=
  exists a, outcome m env w = Return a.

(** The calls of [k] rounds of polling the directory [dir]. *)
Fixpoint polls (k : nat) (dir : string) : Trace :=
  match k with
  | O => []
  | S k' => EvSleep 100 :: Ev (fs_readdirSync dir) :: polls k' dir
  end.

(** Lines 163-171: the log line and the loop. *)
Definition loop_of (timeout : option Z) : M (option (option string)) :=
  let t := match timeout with Some t => t | None => 5000 end in
  logger_debug ("waitForDownload: timeout=" ++ string_of_Z t)%string ;;
  poll (poll_bound t) t 0.

(** Two answers to the same call that the loop cannot tell apart: listings
    with the same first entry, and equal answers to every other call. *)
Definition same_answer {T : Type} (c : Call T)
    : Outcome T -> Outcome T -> Prop :=
  match c in Call T0 return Outcome T0 -> Outcome T0 -> Prop with
  | fs_readdirSync _ =>
      fun r r' =>
        match r, r' with
        | Return names, Return names' => nth_error names 0 = nth_error names' 0
        | Throw e, Throw e' => e = e'
        | _, _ => False
        end
  | _ => fun r r' => r = r'
  end.

(** Two environments that differ at most in what their listings hold after
    the first entry. *)
Definition same_first_entries (env env' : Env) : Prop :=
  (forall parts, path_resolve env parts = path_resolve env' parts) /\
  (forall t path, fs_existsSync env t path = fs_existsSync env' t path) /\
  (forall (T : Type) t (c : Call T),
      same_answer c (respond env t c) (respond env' t c)).

(** Every listing of [dir] starts with a file that carries the partial
    suffix, whatever comes after it. *)
Definition partial_first (env : Env) (dir : string) : Prop :=
  forall t, exists f others,
    respond env t (fs_readdirSync dir) = Return (f :: others) /\
    endsWith f ".crdownload" = true.

(** The events that only echo. *)
Definition is_echo (ev : InputEvent) : bool :=
  match ev with
  | WriteToOutput _ => true
  | _ => false
  end.

(** The value an event settles a pending promise with: the empty string
    for the timer, the line for an answer. *)
Definition settles_with (ev : InputEvent) : option string :=
  match ev with
  | TimerFires => Some ""
  | Answer answer => Some answer
  | WriteToOutput _ => None
  end.

(** ** Further environments and relations *)

(** The browser cannot be started. *)
Definition launch_refused (T : Type) (c : Call T) : option Error :=
  match c with
  | puppeteer_launch _ _ _ => Some (LibError "Failed to launch the browser process")
  | _ => None
  end.

(** The browser cannot be closed. *)
Definition close_refused (T : Type) (c : Call T) : option Error :=
  match c with
  | browser_close _ => Some (LibError "Protocol error: Connection closed")
  | _ => None
  end.

(** The staging directory cannot be listed. *)
Definition listing_unreadable (T : Type) (c : Call T) : option Error :=
  match c with
  | fs_readdirSync _ => Some (LibError "ENOENT: no such file or directory, scandir")
  | _ => None
  end.

(** The destination directory cannot be created. *)
Definition destination_blocked (T : Type) (c : Call T) : option Error :=
  match c with
  | fs_mkdirSync _ true => Some (LibError "EEXIST: file already exists, mkdir")
  | _ => None
  end.

(** The navigation never completes. *)
Definition navigation_stuck (T : Type) (c : Call T) : option Error :=
  match c with
  | page_waitForNavigation _ _ => Some (LibError "TimeoutError: Navigation timeout")
  | _ => None
  end.

(** A browser that opens with no tab. *)
Definition env_no_tab : Env :=
  {| os_platform := "linux";
     dirname := "/app";
     path_resolve := join_path;
     fs_existsSync := fun _ _ => true;
     respond := fun T _ c =>
       match c in Call T0 return Outcome T0 with
       | browser_pages _ => Return []
       | other => answer_ok [] "" _ other
       end;
     rejects_first := fun _ => true |}.

(** The library of [env_ok] on a given platform. *)
Definition env_on (platform : string) : Env :=
  {| os_platform := platform;
     dirname := "/app";
     path_resolve := join_path;
     fs_existsSync := fun _ _ => true;
     respond := fun T _ c => answer_ok [] "" T c;
     rejects_first := fun _ => true |}.

(** A fresh object created without debug mode. *)
Definition plain_world : World :=
  new_Crawler false false "/downloads" empty_world.

(** Two worlds with the same object. *)
Definition same_this (w w' : World) : Prop := this w' = this w.

(** Two worlds whose objects agree on the fields the constructor sets. *)
Definition same_settings (w w' : World) : Prop :=
  headless (this w') = headless (this w) /\
  downloadDir (this w') = downloadDir (this w) /\
  hasError (this w') = hasError (this w) /\
  errorDump (this w') = errorDump (this w).

(** With the logger off in [w], it is still off in [w'] and nothing was
    logged in between. *)
Definition stays_quiet (w w' : World) : Prop :=
  logger_level_debug w = false ->
  logger_level_debug w' = false /\ log w' = log w.

(** What the line reader may write while a password is typed: a star, or
    text with no character of [A-Za-z0-9_] in it. *)
Definition hides_typing (s : string) : bool :=
  String.eqb s "*" || negb (test_word s).

(** [m] raises the [TypeError] of an undefined tab and calls nothing. *)
Definition fails_on_undefined_page {A : Type} (m : M A) (env : Env)
    (w : World) : Prop :=
  outcome m env w = Throw (TypeError "Cannot read properties of undefined") /\
  issues m env w [].

(** [m] raises [e] after the one-second wait and calls nothing else. *)
Definition stops_at_delay {A : Type} (m : M A) (env : Env) (w : World)
    (p : Page) (e : Error) : Prop :=
  outcome m env w = Throw e /\
  issues m env w [Ev (page_waitForTimeout p 1000)].

(** The sleeps of the loop. *)
Definition is_sleep (ev : Event) : bool :=
  match ev with
  | EvSleep _ => true
  | _ => false
  end.

(** No path exists yet and the destination directory cannot be created. *)
Definition env_blocked (listing : list string) : Env :=
  {| os_platform := "linux";
     dirname := "/app";
     path_resolve := join_path;
     fs_existsSync := fun _ _ => false;
     respond := fun T _ c =>
       match destination_blocked T c with
       | Some e => Throw e
       | None => answer_ok listing "" T c
       end;
     rejects_first := fun _ => true |}.

(** What a line reader with the replaced [_writeToOutput] writes for the
    events [evs]. *)
Definition echoes (mask : bool) (evs : list InputEvent) : list string :=
  flat_map
    (fun ev =>
       match ev with
       | WriteToOutput s => [if mask && test_word s then "*" else s]
       | _ => []
       end) evs.

(** ** A subclass that sets the error flag *)

Definition set_hasError (b : bool) (c : Crawler) : Crawler :=
  {| headless := headless c; page := page c; tmpDir := tmpDir c;
     downloadDir := downloadDir c; hasError := b;
     errorDump := errorDump c |}.

(** A crawl that assigns [this.hasError = true] and returns. *)
Definition crawl_flags : Crawl.
Proof.
  refine {| crawl := modify_this (set_hasError true) |}.
  intros env w. exists []. symmetry. apply app_nil_r.
Defined.

(** A library in which every call succeeds and no path exists yet. *)
Definition env_absent (listing : list string) : Env :=
  {| os_platform := "linux";
     dirname := "/app";
     path_resolve := join_path;
     fs_existsSync := fun _ _ => false;
     respond := fun T _ c => answer_ok listing "" T c;
     rejects_first := fun _ => true |}.

(** A download that completes while the loop runs: the first two listings
    of the staging directory show the partial file, the later ones the
    completed one.  (A listing is the second call of each round.) *)
Definition completing (T : Type) (t : Trace) (c : Call T) : Outcome T :=
  match c in Call T0 return Outcome T0 with
  | fs_readdirSync _ =>
      if (List.length t <? 4)%nat
      then Return ["report.pdf.crdownload"; "notes.txt"]
      else Return ["report.pdf"; "notes.txt"]
  | other => answer_ok [] "" _ other
  end.

Definition env_completing : Env :=
  {| os_platform := "linux";
     dirname := "/app";
     path_resolve := join_path;
     fs_existsSync := fun _ _ => true;
     respond := completing;
     rejects_first := fun _ => true |}.

(** The two bytes of a small e with an acute accent in UTF-8: a letter
    that the class [\w] does not hold. *)
Definition e_acute : string :=
  String (ascii_of_nat 195) (String (ascii_of_nat 169) EmptyString).

(** ** A destination that is a file *)

(** The destination path exists and is a regular file: the test for a
    directory answers [false], and creating a directory there fails, as
    [fs.mkdirSync] does also with [recursive]. *)
Definition destination_is_file (T : Type) (c : Call T) : Outcome T :=
  match c in Call T0 return Outcome T0 with
  | fs_statSync_isDirectory _ => Return false
  | fs_mkdirSync _ true => Throw (LibError "EEXIST: file already exists, mkdir")
  | other => answer_ok ["report.pdf"] "" _ other
  end.

Definition env_destination_is_file : Env :=
  {| os_platform := "linux";
     dirname := "/app";
     path_resolve := join_path;
     fs_existsSync := fun _ _ => true;
     respond := fun T _ c => destination_is_file T c;
     rejects_first := fun _ => true |}.

(** The claim of the copy: whenever the loop ends with a completed file,
    the file is copied to the destination directory and the destination
    path is returned. *)
Definition copies_completed_file (timeout : option Z) (env : Env)
    (w : World) : Prop :=
  forall name w1,
    loop_of timeout env w = (Return (Some (Some name)), w1) ->
    pending (Some name) = false ->
    outcome (waitForDownload timeout) env w
      = Return (Some (Some (path_resolve env [downloadDir (this w); name]))) /\
    In (Ev (fs_copyFileSync (path_resolve env [tmpDir (this w); name])
              (path_resolve env [downloadDir (this w); name])))
       (trace (snd (waitForDownload timeout env w))).

(** * Properties *)

(** ** Stepping through a computation *)

Lemma bind_Return :
  forall (A B : Type) (m : M A) (k : A -> M B) env w a w',
    m env w = (Return a, w') -> bind m k env w = k a env w'.
Proof. intros A B m k env w a w' H. unfold bind. rewrite H. reflexivity. Qed.

Lemma bind_Throw :
  forall (A B : Type) (m : M A) (k : A -> M B) env w e w',
    m env w = (Throw e, w') -> bind m k env w = (Throw e, w').
Proof. intros A B m k env w e w' H. unfold bind. rewrite H. reflexivity. Qed.

(** ** Properties kept by every step

    For a reflexive and transitive [R], [preserves R] passes through
    sequencing, [try]/[catch] and [try]/[finally]. *)
Section Preservation.

Variable R : World -> World -> Prop.
Hypothesis R_refl : forall w, R w w.
Hypothesis R_trans : forall a b c, R a b -> R b c -> R a c.

Lemma preserves_ret : forall (A : Type) (a : A), preserves R (ret a).
Proof. intros A a env w. apply R_refl. Qed.

Lemma preserves_throw : forall (A : Type) (e : Error), preserves R (@throw A e).
Proof. intros A e env w. apply R_refl. Qed.

Lemma preserves_get_this : preserves R get_this.
Proof. intros env w. apply R_refl. Qed.

Lemma preserves_get_env : forall (A : Type) (f : Env -> A), preserves R (get_env f).
Proof. intros A f env w. apply R_refl. Qed.

Lemma preserves_this_page : preserves R this_page.
Proof.
  intros env w. unfold this_page. destruct (page (this w)); apply R_refl.
Qed.

Lemma preserves_bind :
  forall (A B : Type) (m : M A) (k : A -> M B),
    preserves R m -> (forall a, preserves R (k a)) -> preserves R (bind m k).
Proof.
  intros A B m k Hm Hk env w. unfold bind.
  specialize (Hm env w). destruct (m env w) as [[a | e] w1]; simpl in Hm.
  - apply R_trans with w1; [exact Hm | apply Hk].
  - exact Hm.
Qed.

Lemma preserves_try_catch :
  forall (A : Type) (body : M A) (handler : Error -> M A),
    preserves R body -> (forall e, preserves R (handler e)) ->
    preserves R (try_catch body handler).
Proof.
  intros A body handler Hb Hh env w. unfold try_catch.
  specialize (Hb env w). destruct (body env w) as [[a | e] w1]; simpl in Hb.
  - exact Hb.
  - apply R_trans with w1; [exact Hb | apply Hh].
Qed.

Lemma preserves_try_finally :
  forall (A : Type) (body : M A) (cleanup : M unit),
    preserves R body -> preserves R cleanup ->
    preserves R (try_finally body cleanup).
Proof.
  intros A body cleanup Hb Hc env w. unfold try_finally.
  specialize (Hb env w). destruct (body env w) as [r w1]; simpl in Hb.
  specialize (Hc env w1).
  destruct (cleanup env w1) as [[u | e] w2]; simpl in *;
    apply R_trans with w1; assumption.
Qed.

Lemma preserves_if :
  forall (A : Type) (b : bool) (m1 m2 : M A),
    preserves R m1 -> preserves R m2 -> preserves R (if b then m1 else m2).
Proof. intros A b m1 m2 H1 H2. destruct b; assumption. Qed.

End Preservation.

(** *** The trace only grows *)

Lemma continues_refl : forall w, continues w w.
Proof. intro w. exists []. symmetry. apply app_nil_r. Qed.

Lemma continues_trans :
  forall a b c, continues a b -> continues b c -> continues a c.
Proof.
  intros a b c [t1 H1] [t2 H2]. exists (t1 ++ t2).
  rewrite H2, H1. symmetry. apply app_assoc.
Qed.

Lemma continues_call : forall (T : Type) (c : Call T), preserves continues (call c).
Proof. intros T c env w. exists [Ev c]. reflexivity. Qed.

Lemma continues_existsSync : forall path, preserves continues (existsSync path).
Proof. intros path env w. exists [EvExistsSync path]. reflexivity. Qed.

Lemma continues_sleep : forall ms, preserves continues (sleep ms).
Proof. intros ms env w. exists [EvSleep ms]. reflexivity. Qed.

Lemma continues_logger_debug : forall msg, preserves continues (logger_debug msg).
Proof. intros msg env w. exists []. simpl. symmetry. apply app_nil_r. Qed.

Lemma continues_console_log : forall msg, preserves continues (console_log msg).
Proof. intros msg env w. exists []. simpl. symmetry. apply app_nil_r. Qed.

Lemma continues_modify_this : forall f, preserves continues (modify_this f).
Proof. intros f env w. exists []. simpl. symmetry. apply app_nil_r. Qed.

Lemma continues_promise_all2 :
  forall (A B : Type) (c1 : Call A) (c2 : Call B),
    preserves continues (promise_all2 c1 c2).
Proof.
  intros A B c1 c2 env w. exists [Ev c1; Ev c2]. unfold promise_all2.
  destruct (respond env (trace w) c1);
    destruct (respond env (trace (with_trace (trace w ++ [Ev c1]) w)) c2);
    simpl; rewrite <- app_assoc; reflexivity.
Qed.

Lemma continues_crawl : forall (C : Crawl), preserves continues crawl.
Proof. intros C env w. apply crawl_history. Qed.

Create HintDb continues.
#[local] Hint Resolve continues_refl continues_call continues_existsSync
  continues_sleep continues_logger_debug continues_console_log
  continues_modify_this continues_promise_all2 continues_crawl : continues.

(** Solves [preserves continues m] for a computation built from the steps
    above. *)
Ltac continues_steps :=
  repeat first
    [ apply (preserves_bind continues continues_trans); [ | intro]
    | apply (preserves_try_catch continues continues_trans); [ | intro]
    | apply (preserves_try_finally continues continues_trans)
    | apply preserves_if
    | apply (preserves_ret continues continues_refl)
    | apply (preserves_throw continues continues_refl)
    | apply (preserves_get_this continues continues_refl)
    | apply (preserves_get_env continues continues_refl)
    | apply (preserves_this_page continues continues_refl)
    | solve [auto with continues] ].

Lemma continues_run_catch : forall e, preserves continues (run_catch e).
Proof. intro e. unfold run_catch. continues_steps. Qed.

Lemma continues_run_guarded :
  forall (C : Crawl) (b : Browser), preserves continues (run_guarded b).
Proof.
  intros C b. unfold run_guarded, crawl_step. continues_steps.
Qed.

(** ** [run] *)

Lemma continues_run_setup : preserves continues run_setup.
Proof. unfold run_setup, launch_browser, prepare_downloads. continues_steps. Qed.

Lemma continues_run : forall (C : Crawl), preserves continues run.
Proof.
  intro C. unfold run.
  apply (preserves_bind continues continues_trans).
  - apply continues_run_setup.
  - intro b. apply continues_run_guarded.
Qed.

(** The launch is the first call of [run], made with the object's flag. *)
Lemma launch_browser_step :
  forall env w,
    exists w1,
      launch_browser env w =
        (respond env (trace w)
           (puppeteer_launch (headless (this w))
              (chrome_path (os_platform env)) launch_args), w1) /\
      trace w1 =
        trace w ++ [Ev (puppeteer_launch (headless (this w))
                          (chrome_path (os_platform env)) launch_args)] /\
      this w1 = this w.
Proof.
  intros env w. eexists. split.
  - unfold launch_browser, bind. simpl. reflexivity.
  - split; reflexivity.
Qed.

Lemma bind_assoc :
  forall (A B C : Type) (m : M A) (k : A -> M B) (h : B -> M C) env w,
    bind (bind m k) h env w = bind m (fun a => bind (k a) h) env w.
Proof.
  intros A B C m k h env w. unfold bind.
  destruct (m env w) as [[a | e] w1]; reflexivity.
Qed.

Lemma run_starts_with_launch :
  forall (C : Crawl) env w,
    exists rest,
      issues run env w
        (Ev (puppeteer_launch (headless (this w))
               (chrome_path (os_platform env)) launch_args) :: rest).
Proof.
  intros C env w. unfold issues.
  destruct (launch_browser_step env w) as (w1 & Hl & Ht & _).
  unfold run, run_setup. rewrite bind_assoc.
  destruct (respond env (trace w) _) as [b | e].
  - rewrite (bind_Return _ _ _ _ env w b w1 Hl). cbv beta.
    assert (Hc : preserves continues
              (bind (bind (prepare_downloads b) (fun _ => ret b)) run_guarded)).
    { apply (preserves_bind continues continues_trans).
      - unfold prepare_downloads. continues_steps.
      - intro b'. apply continues_run_guarded. }
    destruct (Hc env w1) as [calls Hcalls].
    exists calls. etransitivity; [exact Hcalls | ].
    rewrite Ht, <- app_assoc. reflexivity.
  - rewrite (bind_Throw _ _ _ _ env w e w1 Hl). simpl.
    exists []. exact Ht.
Qed.

(** C8: for both values of the constructor's headless argument, [run]
    passes that boolean unchanged as the headless flag of the launch: the
    constructor stores it in the [headless] field, and the first call [run]
    issues is the launch with exactly that flag. *)
Theorem run_passes_headless_unchanged :
  forall (C : Crawl) (debug flag : bool) (dir : string) (env : Env)
         (w : World),
    headless (this (new_Crawler debug flag dir w)) = flag /\
    exists rest,
      issues run env (new_Crawler debug flag dir w)
        (Ev (puppeteer_launch flag (chrome_path (os_platform env))
               launch_args) :: rest).
Proof.
  intros C debug flag dir env w. split; [reflexivity | ].
  exact (run_starts_with_launch C env (new_Crawler debug flag dir w)).
Qed.

(** *** The browser is closed once the [try] statement is entered *)

Lemma run_guarded_closes :
  forall (C : Crawl) b env w,
    exists before,
      trace (snd (run_guarded b env w)) = before ++ [Ev (browser_close b)].
Proof.
  intros C b env w. unfold run_guarded, try_finally.
  destruct (try_catch crawl_step run_catch env w) as [r w1].
  exists (trace w1). unfold call.
  destruct (respond env (trace w1) (browser_close b)); reflexivity.
Qed.

(** When the setup of lines 24-55 completes, the last call of [run] closes
    the browser, whether [run] returns or throws. *)
Lemma run_closes_after_setup :
  forall (C : Crawl) env w b w_s,
    run_setup env w = (Return b, w_s) ->
    exists before,
      trace (snd (run env w)) = before ++ [Ev (browser_close b)].
Proof.
  intros C env w b w_s Hs. unfold run.
  rewrite (bind_Return _ _ _ _ env w b w_s Hs).
  apply run_guarded_closes.
Qed.

(** C5: the launched browser is not closed when [run] throws before the
    [try] statement.  With a staging directory left over from an earlier
    run, creating it fails on line 47; [run] throws that error after the
    launch and never calls [browser.close]. *)
Theorem run_leaves_browser_open_when_staging_exists :
  outcome (@run crawl_idle) (env_failing staging_exists [] "") debug_world
    = Throw (LibError "EEXIST: file already exists, mkdir") /\
  issues (@run crawl_idle) (env_failing staging_exists [] "") debug_world
    [Ev (puppeteer_launch true (Some "/usr/bin/google-chrome") launch_args);
     Ev (browser_pages 1%nat);
     Ev (fs_mkdirSync "/app/temp" false)] /\
  existsb is_browser_close
    (trace (snd (@run crawl_idle (env_failing staging_exists [] "")
                   debug_world))) = false.
Proof. repeat split. Qed.

(** *** The error dump *)

(** C4, as stated, fails: when the tab cannot give its markup any more, no
    dump is written and [run] throws the error of [page.content], not the
    error of the crawl step. *)
Lemma run_loses_error_when_content_unavailable :
  outcome (@run crawl_fails) (env_failing content_unavailable [] "<html>")
    debug_world = Throw (LibError "Target closed") /\
  ~ dumps_and_rethrows crawl_fails
      (env_failing content_unavailable [] "<html>") debug_world.
Proof.
  split; [reflexivity | ].
  intro H.
  edestruct H as [Hout _].
  - vm_compute. reflexivity.
  - vm_compute. reflexivity.
  - reflexivity.
  - vm_compute in Hout. discriminate Hout.
Qed.

(** C4, amended: when the crawl step throws with a non-empty dump path,
    and capturing the markup, writing the dump file and closing the browser
    all succeed, [run] writes the markup captured at the moment of failure
    to the dump path, closes the browser, and throws the error of the crawl
    step. *)
Theorem run_dumps_markup_then_rethrows :
  forall (C : Crawl) env w b w_s e w_c p markup,
    run_setup env w = (Return b, w_s) ->
    crawl_step env w_s = (Throw e, w_c) ->
    truthy (errorDump (this w_c)) = true ->
    page (this w_c) = Some p ->
    respond env (trace w_c) (page_content p) = Return markup ->
    respond env (trace w_c ++ [Ev (page_content p)])
      (fs_writeFileSync (errorDump (this w_c)) markup) = Return tt ->
    respond env
      ((trace w_c ++ [Ev (page_content p)]) ++
       [Ev (fs_writeFileSync (errorDump (this w_c)) markup)])
      (browser_close b) = Return tt ->
    outcome run env w = Throw e /\
    trace (snd (run env w)) =
      trace w_c ++ [Ev (page_content p);
                    Ev (fs_writeFileSync (errorDump (this w_c)) markup);
                    Ev (browser_close b)].
Proof.
  intros C env w b w_s e w_c p markup Hs Hc Hd Hp Hm Hw Hb.
  unfold outcome, run.
  rewrite (bind_Return _ _ _ _ env w b w_s Hs).
  unfold run_guarded, try_finally, try_catch. rewrite Hc.
  unfold run_catch, bind, get_this, this_page, call, console_log, throw.
  simpl. rewrite Hd, Hp. simpl. rewrite Hm. simpl. rewrite Hw. simpl.
  rewrite Hb. simpl. split; [reflexivity | ].
  rewrite <- !app_assoc. reflexivity.
Qed.

Lemma run_dumps_markup_then_rethrows_witness :
  outcome (@run crawl_fails) (env_ok [] "<html>") debug_world
    = Throw (LibError "navigation failed") /\
  In (Ev (fs_writeFileSync "error.html" "<html>"))
     (trace (snd (@run crawl_fails (env_ok [] "<html>") debug_world))).
Proof.
  pose proof
    (run_dumps_markup_then_rethrows crawl_fails (env_ok [] "<html>")
       debug_world 1%nat
       (snd (run_setup (env_ok [] "<html>") debug_world))
       (LibError "navigation failed")
       (snd (@crawl_step crawl_fails (env_ok [] "<html>")
               (snd (run_setup (env_ok [] "<html>") debug_world))))
       7%nat "<html>"
       eq_refl eq_refl eq_refl eq_refl eq_refl eq_refl eq_refl) as [Ho Ht].
  split; [exact Ho | ].
  rewrite Ht. apply in_or_app. right. simpl. right. left. reflexivity.
Defined.

(** *** The error flag *)

(** C9, as stated, fails: the crawl step throws, [run] rethrows, and the
    flag is still [false]. *)
Lemma hasError_false_after_failed_crawl :
  outcome (@run crawl_fails) (env_ok [] "<html>") debug_world
    = Throw (LibError "navigation failed") /\
  hasError (this (snd (@run crawl_fails (env_ok [] "<html>") debug_world)))
    = false /\
  ~ hasError_records_failure crawl_fails (env_ok [] "<html>") debug_world.
Proof.
  split; [reflexivity | split; [reflexivity | ]].
  intro H. specialize (H 1%nat _ eq_refl). vm_compute in H. discriminate H.
Qed.

Lemma same_hasError_refl : forall w, same_hasError w w.
Proof. intro w. reflexivity. Qed.

Lemma same_hasError_trans :
  forall a b c, same_hasError a b -> same_hasError b c -> same_hasError a c.
Proof. unfold same_hasError. intros a b c H1 H2. congruence. Qed.

Lemma same_hasError_call :
  forall (T : Type) (c : Call T), preserves same_hasError (call c).
Proof. intros T c env w. reflexivity. Qed.

Lemma same_hasError_logger_debug :
  forall msg, preserves same_hasError (logger_debug msg).
Proof. intros msg env w. reflexivity. Qed.

Lemma same_hasError_console_log :
  forall msg, preserves same_hasError (console_log msg).
Proof. intros msg env w. reflexivity. Qed.

Lemma same_hasError_set_page :
  forall p, preserves same_hasError (modify_this (set_page p)).
Proof. intros p env w. reflexivity. Qed.

Lemma same_hasError_set_tmpDir :
  forall d, preserves same_hasError (modify_this (set_tmpDir d)).
Proof. intros d env w. reflexivity. Qed.

Create HintDb hasError.
#[local] Hint Resolve same_hasError_refl same_hasError_call
  same_hasError_logger_debug same_hasError_console_log
  same_hasError_set_page same_hasError_set_tmpDir : hasError.

Ltac hasError_steps :=
  repeat first
    [ apply (preserves_bind same_hasError same_hasError_trans); [ | intro]
    | apply (preserves_try_catch same_hasError same_hasError_trans); [ | intro]
    | apply (preserves_try_finally same_hasError same_hasError_trans)
    | apply preserves_if
    | apply (preserves_ret same_hasError same_hasError_refl)
    | apply (preserves_throw same_hasError same_hasError_refl)
    | apply (preserves_get_this same_hasError same_hasError_refl)
    | apply (preserves_get_env same_hasError same_hasError_refl)
    | apply (preserves_this_page same_hasError same_hasError_refl)
    | solve [auto with hasError] ].

Lemma same_hasError_run_catch :
  forall e, preserves same_hasError (run_catch e).
Proof. intro e. unfold run_catch. hasError_steps. Qed.

Lemma same_hasError_run_setup : preserves same_hasError run_setup.
Proof.
  unfold run_setup, launch_browser, prepare_downloads. hasError_steps.
Qed.

(** After the [try] statement the flag is what the crawl step left. *)
Lemma run_guarded_hasError :
  forall (C : Crawl) b env w,
    hasError (this (snd (run_guarded b env w)))
      = hasError (this (snd (crawl_step env w))).
Proof.
  intros C b env w. unfold run_guarded, try_finally, try_catch.
  destruct (crawl_step env w) as [[[] | e] w_c]; simpl.
  - unfold call.
    destruct (respond env (trace w_c) (browser_close b)); reflexivity.
  - pose proof (same_hasError_run_catch e env w_c) as Hcatch.
    unfold same_hasError in Hcatch.
    destruct (run_catch e env w_c) as [r w2]. simpl in Hcatch.
    unfold call.
    destruct (respond env (trace w2) (browser_close b)); exact Hcatch.
Qed.

(** C9, amended: [run] never writes the error flag.  The constructor sets
    it to [false]; the steps before the [try] statement leave it as it is;
    and after [run] it holds the value the crawl step left in it, for every
    subclass, whether the crawl step returned or threw.  So it is still the
    value from before [run] when [run] fails before the crawl step, and
    when the subclass's [crawl] does not assign it. *)
Theorem run_leaves_hasError_to_crawl :
  forall (C : Crawl) env w,
    (forall debug flag dir w0,
        hasError (this (new_Crawler debug flag dir w0)) = false) /\
    (forall b w_s,
        run_setup env w = (Return b, w_s) ->
        hasError (this w_s) = hasError (this w) /\
        hasError (this (snd (run env w)))
          = hasError (this (snd (crawl_step env w_s)))) /\
    (forall e w',
        run_setup env w = (Throw e, w') ->
        hasError (this (snd (run env w))) = hasError (this w)) /\
    (preserves same_hasError crawl ->
     hasError (this (snd (run env w))) = hasError (this w)).
Proof.
  intros C env w.
  pose proof (same_hasError_run_setup env w) as Hsetup.
  unfold same_hasError in Hsetup.
  split; [reflexivity | ]. split; [ | split].
  - intros b w_s Hs. rewrite Hs in Hsetup. simpl in Hsetup.
    split; [exact Hsetup | ].
    unfold run. rewrite (bind_Return _ _ _ _ env w b w_s Hs).
    apply run_guarded_hasError.
  - intros e w' Hs. rewrite Hs in Hsetup. simpl in Hsetup.
    unfold run. rewrite (bind_Throw _ _ _ _ env w e w' Hs). exact Hsetup.
  - intro Hcrawl. unfold run.
    destruct (run_setup env w) as [[b | e] w_s] eqn:Hs; simpl in Hsetup.
    + rewrite (bind_Return _ _ _ _ env w b w_s Hs).
      rewrite run_guarded_hasError, <- Hsetup.
      exact (Hcrawl env (logged "Start crawl" w_s)).
    + rewrite (bind_Throw _ _ _ _ env w e w_s Hs). exact Hsetup.
Qed.

Lemma run_leaves_hasError_to_crawl_witness :
  outcome (@run crawl_flags) (env_ok [] "<html>") debug_world = Return tt /\
  hasError (this (snd (@run crawl_flags (env_ok [] "<html>") debug_world)))
    = true /\
  hasError (this (snd (@run crawl_fails (env_ok [] "<html>") debug_world)))
    = false /\
  hasError (this (snd (@run crawl_idle (env_failing staging_exists [] "")
                         debug_world))) = false.
Proof.
  split; [reflexivity | ]. split; [ | split].
  - destruct (run_leaves_hasError_to_crawl crawl_flags (env_ok [] "<html>")
                debug_world) as (_ & Hcrawl & _).
    destruct (Hcrawl 1%nat _ eq_refl) as [_ H]. rewrite H. reflexivity.
  - destruct (run_leaves_hasError_to_crawl crawl_fails (env_ok [] "<html>")
                debug_world) as (_ & _ & _ & Hkeeps).
    rewrite Hkeeps; [reflexivity | ]. intros env w. reflexivity.
  - destruct (run_leaves_hasError_to_crawl crawl_idle
                (env_failing staging_exists [] "") debug_world)
      as (_ & _ & Hfail & _).
    rewrite (Hfail _ _ eq_refl). reflexivity.
Defined.

(** ** One step at a time

    Each primitive followed by a continuation [k], and what is left to run
    after it. *)

Lemma bind_ret :
  forall (A B : Type) (a : A) (k : A -> M B) env w,
    bind (ret a) k env w = k a env w.
Proof. reflexivity. Qed.

Lemma bind_logger_debug :
  forall (B : Type) msg (k : unit -> M B) env w,
    bind (logger_debug msg) k env w = k tt env (logged msg w).
Proof. reflexivity. Qed.

Lemma bind_console_log :
  forall (B : Type) msg (k : unit -> M B) env w,
    bind (console_log msg) k env w = k tt env (printed msg w).
Proof. reflexivity. Qed.

Lemma bind_get_this :
  forall (B : Type) (k : Crawler -> M B) env w,
    bind get_this k env w = k (this w) env w.
Proof. reflexivity. Qed.

Lemma bind_get_env :
  forall (A B : Type) (f : Env -> A) (k : A -> M B) env w,
    bind (get_env f) k env w = k (f env) env w.
Proof. reflexivity. Qed.

Lemma bind_sleep :
  forall (B : Type) ms (k : unit -> M B) env w,
    bind (sleep ms) k env w = k tt env (with_trace (trace w ++ [EvSleep ms]) w).
Proof. reflexivity. Qed.

Lemma bind_existsSync :
  forall (B : Type) path (k : bool -> M B) env w,
    bind (existsSync path) k env w =
    k (fs_existsSync env (trace w) path) env
      (with_trace (trace w ++ [EvExistsSync path]) w).
Proof. reflexivity. Qed.

Lemma bind_this_page :
  forall (B : Type) (k : Page -> M B) env w p,
    page (this w) = Some p -> bind this_page k env w = k p env w.
Proof.
  intros B k env w p Hp. unfold bind, this_page. rewrite Hp. reflexivity.
Qed.

Lemma bind_this_page_undefined :
  forall (B : Type) (k : Page -> M B) env w,
    page (this w) = None ->
    bind this_page k env w =
    (Throw (TypeError "Cannot read properties of undefined"), w).
Proof.
  intros B k env w Hp. unfold bind, this_page. rewrite Hp. reflexivity.
Qed.

Lemma bind_call :
  forall (T B : Type) (c : Call T) (k : T -> M B) env w,
    bind (call c) k env w =
    match respond env (trace w) c with
    | Return a => k a env (with_trace (trace w ++ [Ev c]) w)
    | Throw e => (Throw e, with_trace (trace w ++ [Ev c]) w)
    end.
Proof.
  intros T B c k env w. unfold bind, call.
  destruct (respond env (trace w) c); reflexivity.
Qed.

(** The fields of the worlds these steps leave. *)
Lemma trace_logged : forall msg w, trace (logged msg w) = trace w.
Proof. reflexivity. Qed.

Lemma this_logged : forall msg w, this (logged msg w) = this w.
Proof. reflexivity. Qed.

Lemma trace_printed : forall msg w, trace (printed msg w) = trace w.
Proof. reflexivity. Qed.

Lemma this_printed : forall msg w, this (printed msg w) = this w.
Proof. reflexivity. Qed.

Lemma trace_with_trace : forall t w, trace (with_trace t w) = t.
Proof. reflexivity. Qed.

Lemma this_with_trace : forall t w, this (with_trace t w) = this w.
Proof. reflexivity. Qed.

Lemma trace_with_this : forall f w, trace (with_this f w) = trace w.
Proof. reflexivity. Qed.

Lemma app_one_cons :
  forall (t : Trace) (ev : Event) rest, (t ++ [ev]) ++ rest = t ++ ev :: rest.
Proof. intros t ev rest. rewrite <- app_assoc. reflexivity. Qed.

Create Rewrite HintDb world.
#[local] Hint Rewrite trace_logged this_logged trace_printed this_printed
  trace_with_trace this_with_trace trace_with_this app_one_cons : world.

(** [waitForTimeout] followed by [k], on an initialised tab. *)
Lemma bind_waitForTimeout :
  forall (B : Type) ms (k : unit -> M B) env w p,
    page (this w) = Some p ->
    bind (waitForTimeout ms) k env w =
    let w1 := logged ("waitForTimeout: " ++ string_of_Z ms)%string w in
    match respond env (trace w) (page_waitForTimeout p ms) with
    | Return a =>
        k a env (with_trace (trace w ++ [Ev (page_waitForTimeout p ms)]) w1)
    | Throw e =>
        (Throw e, with_trace (trace w ++ [Ev (page_waitForTimeout p ms)]) w1)
    end.
Proof.
  intros B ms k env w p Hp. unfold waitForTimeout.
  rewrite bind_assoc, bind_logger_debug, bind_assoc.
  rewrite (bind_this_page _ _ _ _ p) by exact Hp.
  rewrite bind_call. reflexivity.
Qed.

(** Both calls of a [Promise.all] reach the trace, whatever they answer. *)
Lemma trace_promise_all2 :
  forall (A B : Type) (c1 : Call A) (c2 : Call B) env w,
    trace (snd (promise_all2 c1 c2 env w)) = trace w ++ [Ev c1; Ev c2].
Proof.
  intros A B c1 c2 env w. unfold promise_all2.
  destruct (respond env (trace w) c1);
    destruct (respond env (trace (with_trace (trace w ++ [Ev c1]) w)) c2);
    simpl; rewrite <- app_assoc; reflexivity.
Qed.

(** ** The pass-through operations *)

Lemma pre_delayed_starts_with :
  forall (A : Type) (m : M A) env w p,
    page (this w) = Some p ->
    pre_delayed m env w ->
    starts_with is_page_delay (new_calls m env w) = true.
Proof.
  intros A m env w p Hp H. destruct (H p Hp) as [rest Hr].
  unfold new_calls. unfold issues in Hr. rewrite Hr.
  rewrite skipn_app, skipn_all, Nat.sub_diag. reflexivity.
Qed.

(** C2, as stated, fails: [goto] starts with the navigation itself, and so
    do [waitForSelector], [waitAndClick] and [waitForTimeout] with their
    own calls; none of them waits a second first. *)
Lemma goto_has_no_pre_delay :
  new_calls (goto "https://example.com/") (env_ok [] "") started_world
    = [Ev (page_goto 7%nat "https://example.com/");
       Ev (page_waitForNavigation 7%nat domcontentloaded)] /\
  new_calls (waitForSelector "#login") (env_ok [] "") started_world
    = [Ev (page_waitForSelector 7%nat "#login" 5000)] /\
  new_calls (waitAndClick "#login") (env_ok [] "") started_world
    = [Ev (page_waitForSelector 7%nat "#login" 5000);
       Ev (page_evaluate_click 7%nat "#login")] /\
  new_calls (waitForTimeout 250) (env_ok [] "") started_world
    = [Ev (page_waitForTimeout 7%nat 250)] /\
  ~ pre_delayed (goto "https://example.com/") (env_ok [] "") started_world.
Proof.
  repeat (split; [reflexivity | ]).
  intro H.
  assert (Hp : page (this started_world) = Some 7%nat) by reflexivity.
  pose proof (pre_delayed_starts_with _ _ _ _ _ Hp H) as Hs.
  vm_compute in Hs. discriminate Hs.
Qed.

(** A computation that starts with the one-second wait and goes on with
    [k], which makes the call [action] first. *)
Lemma delay_then_action :
  forall (A : Type) (k : unit -> M A) (action : Page -> Event),
    (forall env w p, page (this w) = Some p ->
       exists rest, issues (k tt) env w (action p :: rest)) ->
    delays_then (bind (waitForTimeout 1000) k) action.
Proof.
  intros A k action Hk env w p Hp.
  assert (Hstep := bind_waitForTimeout A 1000 k env w p Hp).
  cbv zeta in Hstep. split.
  - intros p' Hp'. rewrite Hp in Hp'. injection Hp' as Heq. subst p'.
    unfold issues. rewrite Hstep.
    destruct (respond env (trace w) (page_waitForTimeout p 1000)) as [[] | e].
    + destruct (Hk env
                  (with_trace (trace w ++ [Ev (page_waitForTimeout p 1000)])
                     (logged ("waitForTimeout: " ++ string_of_Z 1000)%string w))
                  p Hp) as [rest Hr].
      unfold issues in Hr. rewrite Hr. autorewrite with world.
      eexists. reflexivity.
    + exists []. reflexivity.
  - intro Hd. unfold issues. rewrite Hstep, Hd.
    destruct (Hk env
                (with_trace (trace w ++ [Ev (page_waitForTimeout p 1000)])
                   (logged ("waitForTimeout: " ++ string_of_Z 1000)%string w))
                p Hp) as [rest Hr].
    unfold issues in Hr. rewrite Hr. autorewrite with world.
    eexists. reflexivity.
Qed.

Lemma exists_delays_first :
  forall selector,
    delays_then (exists_ selector)
      (fun p => Ev (page_waitForSelector p selector 5000)).
Proof.
  intros selector env w p Hp.
  assert (H : delays_then
                (bind (waitForTimeout 1000) (fun _ =>
                   try_catch
                     (p <- this_page ;;
                      call (page_waitForSelector p selector 5000) ;;
                      logger_debug "  -> true" ;;
                      ret true)
                     (fun _ => logger_debug "  -> false" ;; ret false)))
                (fun p => Ev (page_waitForSelector p selector 5000))).
  { apply delay_then_action. intros env1 w1 p1 Hp1.
    unfold issues, try_catch.
    rewrite (bind_this_page _ _ _ _ p1) by exact Hp1. rewrite bind_call.
    destruct (respond env1 (trace w1) (page_waitForSelector p1 selector 5000));
      exists []; reflexivity. }
  destruct (H env (logged ("exists: " ++ selector)%string w) p Hp) as [H1 H2].
  split.
  - intros p' Hp'. exact (H1 p' Hp').
  - exact H2.
Qed.

Lemma click_delays_first :
  forall selector options,
    delays_then (click selector options)
      (fun p => Ev (page_click p selector options)).
Proof.
  intros selector options env w p Hp.
  assert (H : delays_then
                (bind (waitForTimeout 1000) (fun _ =>
                   p <- this_page ;;
                   promise_all2 (page_click p selector options)
                     (page_waitForNavigation p load)))
                (fun p => Ev (page_click p selector options))).
  { apply delay_then_action. intros env1 w1 p1 Hp1. unfold issues.
    rewrite (bind_this_page _ _ _ _ p1) by exact Hp1.
    rewrite trace_promise_all2. eexists. reflexivity. }
  destruct (H env (logged ("click: " ++ selector)%string w) p Hp) as [H1 H2].
  split.
  - intros p' Hp'. exact (H1 p' Hp').
  - exact H2.
Qed.

Lemma type_delays_first :
  forall selector text options,
    delays_then (type selector text options)
      (fun p => Ev (page_type p selector text options)).
Proof.
  intros selector text options env w p Hp.
  assert (H : delays_then
                (bind (waitForTimeout 1000) (fun _ =>
                   p <- this_page ;;
                   call (page_type p selector text options)))
                (fun p => Ev (page_type p selector text options))).
  { apply delay_then_action. intros env1 w1 p1 Hp1. unfold issues.
    rewrite (bind_this_page _ _ _ _ p1) by exact Hp1.
    exists []. reflexivity. }
  destruct (H env (logged ("type: " ++ selector ++ " => " ++ text)%string w)
              p Hp) as [H1 H2].
  split.
  - intros p' Hp'. exact (H1 p' Hp').
  - exact H2.
Qed.

(** The four operations that make their own call at once. *)
Lemma goto_calls :
  forall url env w p,
    page (this w) = Some p ->
    issues (goto url) env w
      [Ev (page_goto p url); Ev (page_waitForNavigation p domcontentloaded)].
Proof.
  intros url env w p Hp. unfold issues, goto.
  rewrite bind_logger_debug.
  rewrite (bind_this_page _ _ _ _ p) by exact Hp.
  rewrite trace_promise_all2. reflexivity.
Qed.

Lemma waitForSelector_calls :
  forall selector env w p,
    page (this w) = Some p ->
    issues (waitForSelector selector) env w
      [Ev (page_waitForSelector p selector 5000)].
Proof.
  intros selector env w p Hp. unfold issues, waitForSelector.
  rewrite bind_logger_debug.
  rewrite (bind_this_page _ _ _ _ p) by exact Hp. reflexivity.
Qed.

Lemma waitAndClick_calls :
  forall selector env w p,
    page (this w) = Some p ->
    exists rest,
      issues (waitAndClick selector) env w
        (Ev (page_waitForSelector p selector 5000) :: rest).
Proof.
  intros selector env w p Hp. unfold issues, waitAndClick.
  rewrite bind_logger_debug.
  rewrite (bind_this_page _ _ _ _ p) by exact Hp.
  rewrite bind_call.
  destruct (respond env (trace (logged _ w)) (page_waitForSelector p selector 5000)).
  - rewrite (bind_this_page _ _ _ _ p) by exact Hp.
    exists [Ev (page_evaluate_click p selector)].
    unfold call. simpl. rewrite <- app_assoc. reflexivity.
  - exists []. reflexivity.
Qed.

Lemma waitForTimeout_calls :
  forall ms env w p,
    page (this w) = Some p ->
    issues (waitForTimeout ms) env w [Ev (page_waitForTimeout p ms)].
Proof.
  intros ms env w p Hp. unfold issues, waitForTimeout.
  rewrite bind_logger_debug.
  rewrite (bind_this_page _ _ _ _ p) by exact Hp. reflexivity.
Qed.

(** C2, amended: [exists], [click] and [type] wait a fixed second on the
    page before they make their own call; [goto], [waitForSelector],
    [waitAndClick] and [waitForTimeout] make their own call at once, with
    no delay before it. *)
Theorem three_operations_delay_four_do_not :
  (forall selector,
     delays_then (exists_ selector)
       (fun p => Ev (page_waitForSelector p selector 5000))) /\
  (forall selector options,
     delays_then (click selector options)
       (fun p => Ev (page_click p selector options))) /\
  (forall selector text options,
     delays_then (type selector text options)
       (fun p => Ev (page_type p selector text options))) /\
  (forall url env w p,
     page (this w) = Some p ->
     issues (goto url) env w
       [Ev (page_goto p url);
        Ev (page_waitForNavigation p domcontentloaded)]) /\
  (forall selector env w p,
     page (this w) = Some p ->
     issues (waitForSelector selector) env w
       [Ev (page_waitForSelector p selector 5000)]) /\
  (forall selector env w p,
     page (this w) = Some p ->
     exists rest,
       issues (waitAndClick selector) env w
         (Ev (page_waitForSelector p selector 5000) :: rest)) /\
  (forall ms env w p,
     page (this w) = Some p ->
     issues (waitForTimeout ms) env w [Ev (page_waitForTimeout p ms)]).
Proof.
  split; [exact exists_delays_first | ].
  split; [exact click_delays_first | ].
  split; [exact type_delays_first | ].
  split; [exact goto_calls | ].
  split; [exact waitForSelector_calls | ].
  split; [exact waitAndClick_calls | exact waitForTimeout_calls].
Qed.

Lemma three_operations_delay_four_do_not_witness :
  (exists rest,
     issues (click "#submit" None) (env_ok [] "") started_world
       (Ev (page_waitForTimeout 7%nat 1000)
        :: Ev (page_click 7%nat "#submit" None) :: rest)) /\
  issues (goto "https://example.com/") (env_ok [] "") started_world
    [Ev (page_goto 7%nat "https://example.com/");
     Ev (page_waitForNavigation 7%nat domcontentloaded)].
Proof.
  destruct three_operations_delay_four_do_not
    as (_ & Hclick & _ & Hgoto & _).
  split.
  - destruct (Hclick "#submit" None (env_ok [] "") started_world 7%nat
                eq_refl) as [_ H].
    exact (H eq_refl).
  - exact (Hgoto "https://example.com/" (env_ok [] "") started_world 7%nat
             eq_refl).
Defined.

(** ** [exists] *)

Lemma exists_unfold :
  forall selector env w p,
    page (this w) = Some p ->
    outcome (exists_ selector) env w =
    match respond env (trace w) (page_waitForTimeout p 1000) with
    | Throw e => Throw e
    | Return _ =>
        match respond env (trace w ++ [Ev (page_waitForTimeout p 1000)])
                (page_waitForSelector p selector 5000)
        with
        | Return _ => Return true
        | Throw _ => Return false
        end
    end.
Proof.
  intros selector env w p Hp. unfold outcome, exists_.
  rewrite bind_logger_debug.
  rewrite (bind_waitForTimeout _ _ _ _ _ p) by exact Hp. cbv zeta.
  autorewrite with world.
  destruct (respond env (trace w) (page_waitForTimeout p 1000)) as [u | e];
    [ | reflexivity].
  unfold try_catch.
  rewrite (bind_this_page _ _ _ _ p) by exact Hp.
  rewrite bind_call. autorewrite with world.
  destruct (respond env (trace w ++ [Ev (page_waitForTimeout p 1000)])
              (page_waitForSelector p selector 5000)); reflexivity.
Qed.

(** C3: on a tab that [run] has set, and with the one-second timer wait
    of line 89 over, [exists] returns [true] when the selector wait (with
    its 5000 ms timeout) finds the selector and [false] when that wait
    throws, and it raises no error, for every selector. *)
Theorem exists_reports_selector_as_boolean :
  forall selector env w p,
    page (this w) = Some p ->
    respond env (trace w) (page_waitForTimeout p 1000) = Return tt ->
    (forall h,
        respond env (trace w ++ [Ev (page_waitForTimeout p 1000)])
          (page_waitForSelector p selector 5000) = Return h ->
        outcome (exists_ selector) env w = Return true) /\
    (forall e,
        respond env (trace w ++ [Ev (page_waitForTimeout p 1000)])
          (page_waitForSelector p selector 5000) = Throw e ->
        outcome (exists_ selector) env w = Return false) /\
    never_raises (exists_ selector) env w.
Proof.
  intros selector env w p Hp Hd.
  pose proof (exists_unfold selector env w p Hp) as H.
  rewrite Hd in H. split; [ | split].
  - intros h Hh. rewrite H, Hh. reflexivity.
  - intros e He. rewrite H, He. reflexivity.
  - unfold never_raises. rewrite H.
    destruct (respond env _ (page_waitForSelector p selector 5000));
      eexists; reflexivity.
Qed.

Lemma exists_reports_selector_as_boolean_witness :
  outcome (exists_ "#login") (env_ok [] "") started_world = Return true /\
  outcome (exists_ "#login") (env_failing selector_missing [] "")
    started_world = Return false.
Proof.
  split.
  - destruct (exists_reports_selector_as_boolean "#login" (env_ok [] "")
                started_world 7%nat eq_refl eq_refl) as [Hfound _].
    exact (Hfound (Some 4%nat) eq_refl).
  - destruct (exists_reports_selector_as_boolean "#login"
                (env_failing selector_missing [] "")
                started_world 7%nat eq_refl eq_refl) as (_ & Hmissing & _).
    exact (Hmissing (LibError "TimeoutError: waiting for selector") eq_refl).
Defined.

(** ** [waitForDownload] *)

Lemma poll_S :
  forall fuel timeout elapsed,
    poll (S fuel) timeout elapsed =
    (sleep 100 ;;
     self <- get_this ;;
     names <- call (fs_readdirSync (tmpDir self)) ;;
     if still_waiting (elapsed + 100) timeout (nth_error names 0)
     then poll fuel timeout (elapsed + 100)
     else ret (Some (nth_error names 0))).
Proof. reflexivity. Qed.

(** One round of the loop. *)
Lemma poll_step :
  forall fuel timeout elapsed env w,
    poll (S fuel) timeout elapsed env w =
    let dir := tmpDir (this w) in
    let w1 :=
      with_trace ((trace w ++ [EvSleep 100]) ++ [Ev (fs_readdirSync dir)])
        (with_trace (trace w ++ [EvSleep 100]) w) in
    match respond env (trace w ++ [EvSleep 100]) (fs_readdirSync dir) with
    | Throw e => (Throw e, w1)
    | Return names =>
        if still_waiting (elapsed + 100) timeout (nth_error names 0)
        then poll fuel timeout (elapsed + 100) env w1
        else (Return (Some (nth_error names 0)), w1)
    end.
Proof.
  intros fuel timeout elapsed env w. rewrite poll_S.
  rewrite bind_sleep, bind_get_this, bind_call. cbv zeta.
  rewrite trace_with_trace, this_with_trace.
  destruct (respond env (trace w ++ [EvSleep 100])
              (fs_readdirSync (tmpDir (this w)))) as [names | e];
    [ | reflexivity].
  destruct (still_waiting (elapsed + 100) timeout (nth_error names 0));
    reflexivity.
Qed.

(** The loop leaves the object alone and only adds to the trace. *)
Lemma poll_this :
  forall fuel timeout elapsed env w,
    this (snd (poll fuel timeout elapsed env w)) = this w.
Proof.
  induction fuel as [ | fuel IH]; intros timeout elapsed env w.
  - reflexivity.
  - rewrite poll_step. cbv zeta.
    destruct (respond env _ (fs_readdirSync (tmpDir (this w)))) as [names | e];
      [ | reflexivity].
    destruct (still_waiting _ _ _); [ | reflexivity].
    rewrite IH. reflexivity.
Qed.

(** The loop always ends within [poll_bound timeout] rounds: the fuel never
    runs out. *)
Lemma poll_enough_fuel :
  forall fuel timeout elapsed env w,
    (1 <= fuel)%nat ->
    timeout - elapsed <= 100 * Z.of_nat fuel ->
    fst (poll fuel timeout elapsed env w) <> Return None.
Proof.
  induction fuel as [ | fuel IH]; intros timeout elapsed env w Hpos Hfuel.
  - inversion Hpos.
  - rewrite poll_step. cbv zeta.
    destruct (respond env _ (fs_readdirSync (tmpDir (this w)))) as [names | e];
      [ | discriminate].
    destruct (still_waiting (elapsed + 100) timeout (nth_error names 0))
      eqn:Hwait; [ | discriminate].
    unfold still_waiting in Hwait.
    apply andb_true_iff in Hwait. destruct Hwait as [Hlt _].
    apply Z.ltb_lt in Hlt.
    apply IH; lia.
Qed.

(** Once the loop has ended, more fuel changes nothing. *)
Lemma poll_more_fuel :
  forall fuel timeout elapsed env w r w',
    poll fuel timeout elapsed env w = (r, w') ->
    r <> Return None ->
    forall extra, poll (fuel + extra) timeout elapsed env w = (r, w').
Proof.
  induction fuel as [ | fuel IH]; intros timeout elapsed env w r w' Hp Hr extra.
  - simpl in Hp. unfold ret in Hp. injection Hp as <- <-.
    exfalso. apply Hr. reflexivity.
  - change (S fuel + extra)%nat with (S (fuel + extra)).
    rewrite poll_step in *. cbv zeta in *.
    destruct (respond env _ (fs_readdirSync (tmpDir (this w)))) as [names | e];
      [ | exact Hp].
    destruct (still_waiting (elapsed + 100) timeout (nth_error names 0));
      [ | exact Hp].
    apply IH; assumption.
Qed.

Lemma poll_bound_enough :
  forall timeout,
    (1 <= poll_bound timeout)%nat /\
    timeout - 0 <= 100 * Z.of_nat (poll_bound timeout).
Proof.
  intro timeout. unfold poll_bound. split; [lia | ].
  destruct (Z.le_gt_cases 0 timeout) as [Hnn | Hneg].
  - assert (H0 : 0 <= timeout / 100) by (apply Z.div_pos; lia).
    pose proof (Z.mod_pos_bound timeout 100 ltac:(lia)) as Hmod.
    pose proof (Z.div_mod timeout 100 ltac:(lia)) as Hdm.
    rewrite Nat2Z.inj_succ, Z2Nat.id by exact H0. lia.
  - lia.
Qed.

(** [waitForDownload] is total: for every timeout it ends, with a result or
    with an error of the file system. *)
Lemma waitForDownload_total :
  forall timeout env w,
    outcome (waitForDownload timeout) env w <> Return None.
Proof.
  intros timeout env w. unfold outcome, waitForDownload, waitForDownload_fuel.
  set (t := match timeout with Some t => t | None => 5000 end).
  rewrite bind_logger_debug.
  destruct (poll_bound_enough t) as [Hpos Hfuel].
  pose proof (poll_enough_fuel (poll_bound t) t 0 env
                (logged ("waitForDownload: timeout=" ++ string_of_Z t)%string w)
                Hpos Hfuel) as Hp.
  unfold bind.
  destruct (poll (poll_bound t) t 0 env _) as [[[downloadFile | ] | e] w1].
  - destruct (deliver_download downloadFile env w1) as [[path | e] w2];
      discriminate.
  - exfalso. apply Hp. reflexivity.
  - discriminate.
Qed.

(** While every listing is empty or starts with a partial file, the loop
    runs until the timeout: it ends after the least [k >= 1] rounds with
    [timeout <= elapsed + 100 * k], with the first entry of the last
    listing. *)
Lemma poll_runs_out :
  forall fuel timeout elapsed env w,
    (forall t, exists names,
        respond env t (fs_readdirSync (tmpDir (this w))) = Return names /\
        pending (nth_error names 0) = true) ->
    (1 <= fuel)%nat ->
    timeout - elapsed <= 100 * Z.of_nat fuel ->
    exists (k : nat) names w1,
      poll fuel timeout elapsed env w
        = (Return (Some (nth_error names 0)), w1) /\
      (exists t, respond env t (fs_readdirSync (tmpDir (this w)))
                 = Return names) /\
      trace w1 = trace w ++ polls k (tmpDir (this w)) /\
      this w1 = this w /\
      (1 <= k)%nat /\
      timeout <= elapsed + 100 * Z.of_nat k /\
      (k = 1%nat \/ elapsed + 100 * (Z.of_nat k - 1) < timeout).
Proof.
  induction fuel as [ | fuel IH]; intros timeout elapsed env w Hdir Hpos Hfuel.
  - inversion Hpos.
  - rewrite poll_step. cbv zeta.
    destruct (Hdir (trace w ++ [EvSleep 100])) as (names & Hnames & Hpend).
    rewrite Hnames. unfold still_waiting. rewrite Hpend, andb_true_r.
    destruct (elapsed + 100 <? timeout) eqn:Hlt.
    + apply Z.ltb_lt in Hlt.
      set (w1 := with_trace
                   ((trace w ++ [EvSleep 100]) ++
                    [Ev (fs_readdirSync (tmpDir (this w)))])
                   (with_trace (trace w ++ [EvSleep 100]) w)).
      destruct (IH timeout (elapsed + 100) env w1) as
        (k & names' & w2 & Hpoll & Hans & Htrace & Hthis & Hk & Hup & Hlow).
      * exact Hdir.
      * lia.
      * lia.
      * exists (S k), names', w2.
        split; [exact Hpoll | ]. split; [exact Hans | ].
        split.
        { rewrite Htrace. unfold w1. rewrite trace_with_trace.
          rewrite <- !app_assoc. reflexivity. }
        split; [rewrite Hthis; reflexivity | ].
        split; [lia | ]. split; [lia | ].
        right. destruct Hlow as [-> | Hlow]; lia.
    + apply Z.ltb_ge in Hlt.
      exists 1%nat, names. eexists.
      split; [reflexivity | ].
      split; [exists (trace w ++ [EvSleep 100]); exact Hnames | ].
      split; [rewrite trace_with_trace, <- app_assoc; reflexivity | ].
      split; [reflexivity | ].
      split; [lia | ]. split; [lia | ]. left. reflexivity.
Qed.

Lemma continues_poll :
  forall fuel timeout elapsed, preserves continues (poll fuel timeout elapsed).
Proof.
  induction fuel as [ | fuel IH]; intros timeout elapsed.
  - apply (preserves_ret continues continues_refl).
  - rewrite poll_S. continues_steps.
Qed.

Lemma continues_deliver_download :
  forall downloadFile, preserves continues (deliver_download downloadFile).
Proof.
  intros [name | ]; unfold deliver_download, when; continues_steps.
Qed.

(** The first round of the loop: a sleep of 100 ms, then the listing. *)
Lemma poll_first_round :
  forall fuel timeout elapsed env w,
    exists rest,
      issues (poll (S fuel) timeout elapsed) env w
        (EvSleep 100 :: Ev (fs_readdirSync (tmpDir (this w))) :: rest).
Proof.
  intros fuel timeout elapsed env w. unfold issues.
  rewrite poll_step. cbv zeta.
  destruct (respond env (trace w ++ [EvSleep 100])
              (fs_readdirSync (tmpDir (this w)))) as [names | e].
  - destruct (still_waiting (elapsed + 100) timeout (nth_error names 0)).
    + match goal with
      | |- context [poll fuel timeout (elapsed + 100) env ?w1] =>
          destruct (continues_poll fuel timeout (elapsed + 100) env w1)
            as [calls Hc]
      end.
      exists calls. rewrite Hc, trace_with_trace, <- !app_assoc. reflexivity.
    + exists []. simpl. rewrite <- app_assoc. reflexivity.
  - exists []. simpl. rewrite <- app_assoc. reflexivity.
Qed.

(** Every call starts with one round: a sleep of 100 ms, and only then the
    first listing. *)
Lemma waitForDownload_sleeps_first :
  forall timeout env w,
    exists rest,
      issues (waitForDownload timeout) env w
        (EvSleep 100 :: Ev (fs_readdirSync (tmpDir (this w))) :: rest).
Proof.
  intros timeout env w. unfold issues, waitForDownload, waitForDownload_fuel.
  set (t := match timeout with Some t => t | None => 5000 end).
  rewrite bind_logger_debug. unfold poll_bound.
  set (w0 := logged _ w).
  destruct (poll_first_round (Z.to_nat (t / 100)) t 0 env w0) as [rest Hr].
  unfold issues in Hr.
  change (tmpDir (this w0)) with (tmpDir (this w)) in Hr.
  change (trace w0) with (trace w) in Hr.
  unfold bind.
  destruct (poll (S (Z.to_nat (t / 100))) t 0 env w0)
    as [[[downloadFile | ] | e] w1]; simpl in Hr.
  - destruct (preserves_bind continues continues_trans _ _
                (deliver_download downloadFile)
                (fun path => ret (Some path))
                (continues_deliver_download downloadFile)
                (fun path => preserves_ret continues continues_refl _ _)
                env w1) as [calls Hc].
    unfold bind in Hc. exists (rest ++ calls).
    etransitivity; [exact Hc | ].
    rewrite Hr, <- app_assoc. reflexivity.
  - exists rest. exact Hr.
  - exists rest. exact Hr.
Qed.

(** *** Delivering the file the loop found *)

Lemma deliver_download_undefined :
  forall env w, deliver_download None env w = (Return None, w).
Proof. reflexivity. Qed.

(** *** The two halves of [waitForDownload] *)

Lemma waitForDownload_loop :
  forall timeout env w,
    waitForDownload timeout env w =
    bind (loop_of timeout)
      (fun r =>
         match r with
         | None => ret None
         | Some downloadFile =>
             path <- deliver_download downloadFile ;; ret (Some path)
         end) env w.
Proof.
  intros timeout env w. unfold waitForDownload, waitForDownload_fuel, loop_of.
  rewrite bind_assoc. reflexivity.
Qed.

Lemma loop_of_this :
  forall timeout env w, this (snd (loop_of timeout env w)) = this w.
Proof.
  intros timeout env w. unfold loop_of. rewrite bind_logger_debug.
  rewrite poll_this. reflexivity.
Qed.

(** C7, as stated, fails: with a destination that exists and is not a
    directory, the recursive [mkdirSync] of line 179 throws; the completed
    file is not copied and no path is returned. *)
Lemma waitForDownload_fails_when_destination_is_file :
  outcome (waitForDownload (Some 300)) env_destination_is_file started_world
    = Throw (LibError "EEXIST: file already exists, mkdir") /\
  trace (snd (waitForDownload (Some 300) env_destination_is_file
                started_world))
    = [EvSleep 100; Ev (fs_readdirSync "/app/temp");
       EvExistsSync "/downloads"; Ev (fs_statSync_isDirectory "/downloads");
       Ev (fs_mkdirSync "/downloads" true)] /\
  ~ copies_completed_file (Some 300) env_destination_is_file started_world.
Proof.
  split; [reflexivity | ]. split; [reflexivity | ].
  intro H.
  destruct (H "report.pdf" _ eq_refl eq_refl) as [Ho _].
  vm_compute in Ho. discriminate Ho.
Qed.

(** The three states of the destination directory, for the file the loop
    left: which calls [deliver_download] makes, and how it completes with
    the answers to the creation and to the copy. *)
Lemma deliver_download_cases :
  forall name env w,
    falsy (Some name) = false ->
    let dir := downloadDir (this w) in
    let source := path_resolve env [tmpDir (this w); name] in
    let downloadPath := path_resolve env [dir; name] in
    let t_exists := trace w ++ [EvExistsSync dir] in
    let t_stat := t_exists ++ [Ev (fs_statSync_isDirectory dir)] in
    let copied (checks : Trace) :=
      fst (deliver_download (Some name) env w) = Return (Some downloadPath) /\
      trace (snd (deliver_download (Some name) env w)) =
        trace w ++ checks ++ [Ev (fs_copyFileSync source downloadPath)] in
    let refused (checks : Trace) (e : Error) :=
      fst (deliver_download (Some name) env w) = Throw e /\
      trace (snd (deliver_download (Some name) env w)) = trace w ++ checks in
    (fs_existsSync env (trace w) dir = false ->
     (respond env t_exists (fs_mkdirSync dir true) = Return tt ->
      respond env (t_exists ++ [Ev (fs_mkdirSync dir true)])
        (fs_copyFileSync source downloadPath) = Return tt ->
      copied [EvExistsSync dir; Ev (fs_mkdirSync dir true)]) /\
     (forall e,
         respond env t_exists (fs_mkdirSync dir true) = Throw e ->
         refused [EvExistsSync dir; Ev (fs_mkdirSync dir true)] e)) /\
    (fs_existsSync env (trace w) dir = true ->
     respond env t_exists (fs_statSync_isDirectory dir) = Return false ->
     (respond env t_stat (fs_mkdirSync dir true) = Return tt ->
      respond env (t_stat ++ [Ev (fs_mkdirSync dir true)])
        (fs_copyFileSync source downloadPath) = Return tt ->
      copied [EvExistsSync dir; Ev (fs_statSync_isDirectory dir);
              Ev (fs_mkdirSync dir true)]) /\
     (forall e,
         respond env t_stat (fs_mkdirSync dir true) = Throw e ->
         refused [EvExistsSync dir; Ev (fs_statSync_isDirectory dir);
                  Ev (fs_mkdirSync dir true)] e)) /\
    (fs_existsSync env (trace w) dir = true ->
     respond env t_exists (fs_statSync_isDirectory dir) = Return true ->
     respond env t_stat (fs_copyFileSync source downloadPath) = Return tt ->
     copied [EvExistsSync dir; Ev (fs_statSync_isDirectory dir)]).
Proof.
  intros name env w Hname dir source downloadPath t_exists t_stat
    copied refused.
  unfold copied, refused, deliver_download. rewrite Hname.
  rewrite bind_get_this, bind_existsSync. fold dir.
  split; [ | split].
  - intro Hno. rewrite Hno. simpl negb. cbv iota. rewrite bind_ret.
    unfold when. rewrite bind_call, trace_with_trace. fold t_exists.
    split.
    + intros Hmk Hcp. rewrite Hmk, bind_get_env, bind_call.
      rewrite trace_with_trace. fold source downloadPath. rewrite Hcp.
      split; [reflexivity | ].
      simpl. unfold t_exists. rewrite <- !app_assoc. reflexivity.
    + intros e Hmk. rewrite Hmk. split; [reflexivity | ].
      simpl. unfold t_exists. rewrite <- !app_assoc. reflexivity.
  - intros Hyes Hstat. rewrite Hyes. simpl negb. cbv iota.
    rewrite bind_assoc, bind_call, trace_with_trace. fold t_exists.
    rewrite Hstat, bind_ret. simpl negb. unfold when.
    rewrite bind_call, trace_with_trace. fold t_stat.
    split.
    + intros Hmk Hcp. rewrite Hmk, bind_get_env, bind_call.
      rewrite trace_with_trace. fold source downloadPath. rewrite Hcp.
      split; [reflexivity | ].
      simpl. unfold t_stat, t_exists. rewrite <- !app_assoc. reflexivity.
    + intros e Hmk. rewrite Hmk. split; [reflexivity | ].
      simpl. unfold t_stat, t_exists. rewrite <- !app_assoc. reflexivity.
  - intros Hyes Hstat Hcp. rewrite Hyes. simpl negb. cbv iota.
    rewrite bind_assoc, bind_call, trace_with_trace. fold t_exists.
    rewrite Hstat, bind_ret. simpl negb. unfold when.
    rewrite bind_ret, bind_get_env, bind_call, trace_with_trace.
    fold t_stat source downloadPath. rewrite Hcp.
    split; [reflexivity | ].
    simpl. unfold t_stat, t_exists. rewrite <- !app_assoc. reflexivity.
Qed.

(** C7, amended: when the loop of [waitForDownload] ends with a completed
    file as first entry, the method calls the recursive [mkdirSync] on the
    destination directory exactly when the directory is absent or is not a
    directory; when that creation (where there is one) and the copy
    succeed, the file has been copied from the staging directory to the
    same name in the destination directory and the destination path is
    returned; when the creation throws, the method raises that error and
    copies nothing. *)
Theorem waitForDownload_delivers_completed_file :
  forall timeout env w name w1,
    loop_of timeout env w = (Return (Some (Some name)), w1) ->
    pending (Some name) = false ->
    let dir := downloadDir (this w) in
    let source := path_resolve env [tmpDir (this w); name] in
    let downloadPath := path_resolve env [dir; name] in
    let t_exists := trace w1 ++ [EvExistsSync dir] in
    let t_stat := t_exists ++ [Ev (fs_statSync_isDirectory dir)] in
    let copied (checks : Trace) :=
      outcome (waitForDownload timeout) env w
        = Return (Some (Some downloadPath)) /\
      trace (snd (waitForDownload timeout env w)) =
        trace w1 ++ checks ++ [Ev (fs_copyFileSync source downloadPath)] in
    let refused (checks : Trace) (e : Error) :=
      outcome (waitForDownload timeout) env w = Throw e /\
      trace (snd (waitForDownload timeout env w)) = trace w1 ++ checks in
    (fs_existsSync env (trace w1) dir = false ->
     (respond env t_exists (fs_mkdirSync dir true) = Return tt ->
      respond env (t_exists ++ [Ev (fs_mkdirSync dir true)])
        (fs_copyFileSync source downloadPath) = Return tt ->
      copied [EvExistsSync dir; Ev (fs_mkdirSync dir true)]) /\
     (forall e,
         respond env t_exists (fs_mkdirSync dir true) = Throw e ->
         refused [EvExistsSync dir; Ev (fs_mkdirSync dir true)] e)) /\
    (fs_existsSync env (trace w1) dir = true ->
     respond env t_exists (fs_statSync_isDirectory dir) = Return false ->
     (respond env t_stat (fs_mkdirSync dir true) = Return tt ->
      respond env (t_stat ++ [Ev (fs_mkdirSync dir true)])
        (fs_copyFileSync source downloadPath) = Return tt ->
      copied [EvExistsSync dir; Ev (fs_statSync_isDirectory dir);
              Ev (fs_mkdirSync dir true)]) /\
     (forall e,
         respond env t_stat (fs_mkdirSync dir true) = Throw e ->
         refused [EvExistsSync dir; Ev (fs_statSync_isDirectory dir);
                  Ev (fs_mkdirSync dir true)] e)) /\
    (fs_existsSync env (trace w1) dir = true ->
     respond env t_exists (fs_statSync_isDirectory dir) = Return true ->
     respond env t_stat (fs_copyFileSync source downloadPath) = Return tt ->
     copied [EvExistsSync dir; Ev (fs_statSync_isDirectory dir)]).
Proof.
  intros timeout env w name w1 Hloop Hdone
    dir source downloadPath t_exists t_stat copied refused.
  assert (Hthis : this w1 = this w).
  { pose proof (loop_of_this timeout env w) as H. rewrite Hloop in H.
    exact H. }
  assert (Hname : falsy (Some name) = false).
  { unfold pending in Hdone. apply orb_false_iff in Hdone. apply Hdone. }
  pose proof (deliver_download_cases name env w1 Hname) as Hd.
  cbv zeta in Hd. rewrite Hthis in Hd.
  fold dir source downloadPath t_exists t_stat in Hd.
  assert (Hrun : waitForDownload timeout env w =
                 bind (deliver_download (Some name))
                   (fun path => ret (Some path)) env w1).
  { rewrite waitForDownload_loop.
    rewrite (bind_Return _ _ _ _ env w _ w1 Hloop). reflexivity. }
  assert (Hcopied : forall checks,
            fst (deliver_download (Some name) env w1)
              = Return (Some downloadPath) /\
            trace (snd (deliver_download (Some name) env w1)) =
              trace w1 ++ checks ++ [Ev (fs_copyFileSync source downloadPath)] ->
            copied checks).
  { intros checks [Ho Ht]. unfold copied, outcome. rewrite Hrun. unfold bind.
    destruct (deliver_download (Some name) env w1) as [[path | e] w2];
      simpl in Ho, Ht.
    - injection Ho as ->. split; [reflexivity | exact Ht].
    - discriminate Ho. }
  assert (Hrefused : forall checks e,
            fst (deliver_download (Some name) env w1) = Throw e /\
            trace (snd (deliver_download (Some name) env w1)) =
              trace w1 ++ checks ->
            refused checks e).
  { intros checks e [Ho Ht]. unfold refused, outcome. rewrite Hrun.
    unfold bind.
    destruct (deliver_download (Some name) env w1) as [[path | e'] w2];
      simpl in Ho, Ht.
    - discriminate Ho.
    - injection Ho as ->. split; [reflexivity | exact Ht]. }
  destruct Hd as (Habsent & Hfile & Hdir).
  split; [ | split].
  - intro Hno. destruct (Habsent Hno) as [Hok Herr]. split.
    + intros Hmk Hcp. apply Hcopied, Hok; assumption.
    + intros e Hmk. apply Hrefused, Herr. exact Hmk.
  - intros Hyes Hstat. destruct (Hfile Hyes Hstat) as [Hok Herr]. split.
    + intros Hmk Hcp. apply Hcopied, Hok; assumption.
    + intros e Hmk. apply Hrefused, Herr. exact Hmk.
  - intros Hyes Hstat Hcp. apply Hcopied, Hdir; assumption.
Qed.

Lemma waitForDownload_delivers_completed_file_witness :
  (outcome (waitForDownload (Some 300)) (env_ok ["report.pdf"] "")
     started_world = Return (Some (Some "/downloads/report.pdf")) /\
   trace (snd (waitForDownload (Some 300) (env_ok ["report.pdf"] "")
                 started_world))
     = [EvSleep 100; Ev (fs_readdirSync "/app/temp");
        EvExistsSync "/downloads"; Ev (fs_statSync_isDirectory "/downloads");
        Ev (fs_copyFileSync "/app/temp/report.pdf" "/downloads/report.pdf")]) /\
  (outcome (waitForDownload (Some 300)) (env_absent ["report.pdf"])
     started_world = Return (Some (Some "/downloads/report.pdf")) /\
   trace (snd (waitForDownload (Some 300) (env_absent ["report.pdf"])
                 started_world))
     = [EvSleep 100; Ev (fs_readdirSync "/app/temp");
        EvExistsSync "/downloads"; Ev (fs_mkdirSync "/downloads" true);
        Ev (fs_copyFileSync "/app/temp/report.pdf" "/downloads/report.pdf")]) /\
  (outcome (waitForDownload (Some 300)) env_destination_is_file
     started_world = Throw (LibError "EEXIST: file already exists, mkdir") /\
   trace (snd (waitForDownload (Some 300) env_destination_is_file
                 started_world))
     = [EvSleep 100; Ev (fs_readdirSync "/app/temp");
        EvExistsSync "/downloads"; Ev (fs_statSync_isDirectory "/downloads");
        Ev (fs_mkdirSync "/downloads" true)]).
Proof.
  split; [ | split].
  - destruct (waitForDownload_delivers_completed_file (Some 300)
                (env_ok ["report.pdf"] "") started_world "report.pdf"
                (snd (loop_of (Some 300) (env_ok ["report.pdf"] "")
                        started_world))
                eq_refl eq_refl) as (_ & _ & Hdir).
    destruct (Hdir eq_refl eq_refl eq_refl) as [Ho Ht].
    split; [exact Ho | ]. rewrite Ht. reflexivity.
  - destruct (waitForDownload_delivers_completed_file (Some 300)
                (env_absent ["report.pdf"]) started_world "report.pdf"
                (snd (loop_of (Some 300) (env_absent ["report.pdf"])
                        started_world))
                eq_refl eq_refl) as (Habsent & _ & _).
    destruct (Habsent eq_refl) as [Hok _].
    destruct (Hok eq_refl eq_refl) as [Ho Ht].
    split; [exact Ho | ]. rewrite Ht. reflexivity.
  - destruct (waitForDownload_delivers_completed_file (Some 300)
                env_destination_is_file started_world "report.pdf"
                (snd (loop_of (Some 300) env_destination_is_file
                        started_world))
                eq_refl eq_refl) as (_ & Hfile & _).
    destruct (Hfile eq_refl eq_refl) as [_ Herr].
    destruct (Herr _ eq_refl) as [Ho Ht].
    split; [exact Ho | ]. rewrite Ht. reflexivity.
Defined.

(** *** Only the first entry of the listing counts *)

Lemma poll_first_entry_only :
  forall env env',
    same_first_entries env env' ->
    forall fuel timeout elapsed w,
      poll fuel timeout elapsed env w = poll fuel timeout elapsed env' w.
Proof.
  intros env env' (_ & _ & Hsame).
  induction fuel as [ | fuel IH]; intros timeout elapsed w.
  - reflexivity.
  - rewrite !poll_step. cbv zeta.
    pose proof (Hsame _ (trace w ++ [EvSleep 100])
                  (fs_readdirSync (tmpDir (this w)))) as H.
    cbv beta iota delta [same_answer] in H.
    destruct (respond env (trace w ++ [EvSleep 100])
                (fs_readdirSync (tmpDir (this w)))) as [names | e];
      destruct (respond env' (trace w ++ [EvSleep 100])
                  (fs_readdirSync (tmpDir (this w)))) as [names' | e'];
      try contradiction.
    + rewrite H.
      destruct (still_waiting (elapsed + 100) timeout (nth_error names' 0));
        [apply IH | reflexivity].
    + rewrite H. reflexivity.
Qed.

Lemma deliver_download_first_entry_only :
  forall env env',
    same_first_entries env env' ->
    forall downloadFile w,
      deliver_download downloadFile env w = deliver_download downloadFile env' w.
Proof.
  intros env env' (Hresolve & Hexists & Hsame) [name | ] w; [ | reflexivity].
  unfold deliver_download.
  destruct (falsy (Some name)); [reflexivity | ].
  rewrite !bind_get_this, !bind_existsSync, Hexists.
  assert (Hcopy : forall w1,
            bind (get_env path_resolve)
              (fun resolve =>
                 call (fs_copyFileSync (resolve [tmpDir (this w); name])
                         (resolve [downloadDir (this w); name])) ;;
                 ret (Some (resolve [downloadDir (this w); name]))) env w1
            = bind (get_env path_resolve)
              (fun resolve =>
                 call (fs_copyFileSync (resolve [tmpDir (this w); name])
                         (resolve [downloadDir (this w); name])) ;;
                 ret (Some (resolve [downloadDir (this w); name]))) env' w1).
  { intro w1. rewrite !bind_get_env, !bind_call, !Hresolve.
    pose proof (Hsame _ (trace w1)
                  (fs_copyFileSync
                     (path_resolve env' [tmpDir (this w); name])
                     (path_resolve env' [downloadDir (this w); name]))) as H.
    cbv beta iota delta [same_answer] in H. rewrite H. reflexivity. }
  assert (Hmk : forall (missing : bool) w1,
            bind (when missing (call (fs_mkdirSync (downloadDir (this w)) true)))
              (fun _ =>
                 resolve <- get_env path_resolve ;;
                 call (fs_copyFileSync (resolve [tmpDir (this w); name])
                         (resolve [downloadDir (this w); name])) ;;
                 ret (Some (resolve [downloadDir (this w); name]))) env w1
            = bind (when missing (call (fs_mkdirSync (downloadDir (this w)) true)))
              (fun _ =>
                 resolve <- get_env path_resolve ;;
                 call (fs_copyFileSync (resolve [tmpDir (this w); name])
                         (resolve [downloadDir (this w); name])) ;;
                 ret (Some (resolve [downloadDir (this w); name]))) env' w1).
  { intros [ | ] w1; unfold when.
    - rewrite !bind_call.
      pose proof (Hsame _ (trace w1)
                    (fs_mkdirSync (downloadDir (this w)) true)) as H.
      cbv beta iota delta [same_answer] in H. rewrite H.
      destruct (respond env' (trace w1) _); [apply Hcopy | reflexivity].
    - rewrite !bind_ret. apply Hcopy. }
  destruct (fs_existsSync env' (trace w) (downloadDir (this w))); simpl negb;
    cbv iota.
  - rewrite !bind_assoc, !bind_call.
    match goal with
    | |- context [respond env ?t (fs_statSync_isDirectory ?d)] =>
        pose proof (Hsame _ t (fs_statSync_isDirectory d)) as H
    end.
    cbv beta iota delta [same_answer] in H. rewrite H.
    destruct (respond env' _ (fs_statSync_isDirectory _)); [ | reflexivity].
    rewrite !bind_ret. apply Hmk.
  - rewrite !bind_ret. apply Hmk.
Qed.

Lemma waitForDownload_first_entry_only :
  forall env env',
    same_first_entries env env' ->
    forall timeout w,
      waitForDownload timeout env w = waitForDownload timeout env' w.
Proof.
  intros env env' Hsame timeout w.
  unfold waitForDownload, waitForDownload_fuel.
  rewrite !bind_logger_debug. unfold bind.
  rewrite (poll_first_entry_only env env' Hsame).
  destruct (poll _ _ 0 env' _) as [[[downloadFile | ] | e] w1];
    try reflexivity.
  rewrite (deliver_download_first_entry_only env env' Hsame). reflexivity.
Qed.

(** *** A partial file in front *)

Lemma loop_runs_out_on_partial_first :
  forall timeout env w,
    partial_first env (tmpDir (this w)) ->
    let t := match timeout with Some t => t | None => 5000 end in
    exists f (k : nat) w1,
      loop_of timeout env w = (Return (Some (Some f)), w1) /\
      endsWith f ".crdownload" = true /\
      trace w1 = trace w ++ polls k (tmpDir (this w)) /\
      (1 <= k)%nat /\
      t <= 100 * Z.of_nat k /\
      (k = 1%nat \/ 100 * (Z.of_nat k - 1) < t).
Proof.
  intros timeout env w Hpartial t. unfold loop_of. fold t.
  rewrite bind_logger_debug.
  set (w0 := logged _ w).
  destruct (poll_bound_enough t) as [Hpos Hfuel].
  destruct (poll_runs_out (poll_bound t) t 0 env w0) as
    (k & names & w1 & Hpoll & [t' Hans] & Htrace & _ & Hk & Hup & Hlow).
  - intro t0. destruct (Hpartial t0) as (f & others & Hf & Hsuffix).
    exists (f :: others). split; [exact Hf | ].
    unfold pending. simpl. rewrite Hsuffix. apply orb_true_r.
  - exact Hpos.
  - exact Hfuel.
  - destruct (Hpartial t') as (f & others & Hf & Hsuffix).
    change (tmpDir (this w0)) with (tmpDir (this w)) in Hans.
    rewrite Hf in Hans. injection Hans as <-.
    exists f, k, w1.
    split; [exact Hpoll | ]. split; [exact Hsuffix | ].
    split; [exact Htrace | ]. split; [exact Hk | ].
    split; [lia | ]. destruct Hlow as [-> | Hlow]; [left; reflexivity | right; lia].
Qed.

(** C10: each round looks at the first entry of the listing only (the
    result is the same for every environment whose listings have the same
    first entries); so while a partial file is listed first, the loop runs
    until the timeout and hands that partial file on, whatever completed
    file is listed after it.  And every call sleeps 100 ms before its first
    listing, for every timeout, also zero and negative ones. *)
Theorem waitForDownload_looks_at_first_entry_only :
  forall timeout env w,
    (forall env',
        same_first_entries env env' ->
        waitForDownload timeout env w = waitForDownload timeout env' w) /\
    (partial_first env (tmpDir (this w)) ->
     let t := match timeout with Some t => t | None => 5000 end in
     exists f (k : nat) w1,
       loop_of timeout env w = (Return (Some (Some f)), w1) /\
       endsWith f ".crdownload" = true /\
       trace w1 = trace w ++ polls k (tmpDir (this w)) /\
       (1 <= k)%nat /\
       t <= 100 * Z.of_nat k /\
       (k = 1%nat \/ 100 * (Z.of_nat k - 1) < t) /\
       waitForDownload timeout env w =
         bind (deliver_download (Some f)) (fun path => ret (Some path))
           env w1) /\
    (exists rest,
        issues (waitForDownload timeout) env w
          (EvSleep 100 :: Ev (fs_readdirSync (tmpDir (this w))) :: rest)).
Proof.
  intros timeout env w. split; [ | split].
  - intros env' Hsame. apply waitForDownload_first_entry_only. exact Hsame.
  - intros Hpartial t.
    destruct (loop_runs_out_on_partial_first timeout env w Hpartial)
      as (f & k & w1 & Hloop & Hsuffix & Htrace & Hk & Hup & Hlow).
    exists f, k, w1.
    split; [exact Hloop | ]. split; [exact Hsuffix | ].
    split; [exact Htrace | ]. split; [exact Hk | ].
    split; [exact Hup | ]. split; [exact Hlow | ].
    rewrite waitForDownload_loop.
    rewrite (bind_Return _ _ _ _ env w _ w1 Hloop). reflexivity.
  - apply waitForDownload_sleeps_first.
Qed.

Lemma waitForDownload_looks_at_first_entry_only_witness :
  waitForDownload (Some 250)
    (env_ok ["report.pdf.crdownload"; "notes.txt"] "") started_world
  = waitForDownload (Some 250)
      (env_ok ["report.pdf.crdownload"] "") started_world /\
  (exists f (k : nat) w1,
      loop_of (Some 250) (env_ok ["report.pdf.crdownload"; "notes.txt"] "")
        started_world = (Return (Some (Some f)), w1) /\
      endsWith f ".crdownload" = true /\
      trace w1 = trace started_world ++ polls k "/app/temp" /\
      (1 <= k)%nat /\
      250 <= 100 * Z.of_nat k /\
      (k = 1%nat \/ 100 * (Z.of_nat k - 1) < 250) /\
      waitForDownload (Some 250)
        (env_ok ["report.pdf.crdownload"; "notes.txt"] "") started_world =
        bind (deliver_download (Some f)) (fun path => ret (Some path))
          (env_ok ["report.pdf.crdownload"; "notes.txt"] "") w1).
Proof.
  destruct (waitForDownload_looks_at_first_entry_only (Some 250)
              (env_ok ["report.pdf.crdownload"; "notes.txt"] "")
              started_world) as (Hfirst & Hpartial & _).
  split.
  - apply Hfirst.
    split; [reflexivity | split; [reflexivity | ]].
    intros T t c. destruct c; reflexivity.
  - apply Hpartial. intro t.
    exists "report.pdf.crdownload", ["notes.txt"].
    split; reflexivity.
Defined.

(** Nothing in the staging directory: the loop runs until the timeout and
    the method returns [undefined]. *)
Lemma waitForDownload_undefined_when_empty :
  forall timeout env w,
    (forall t, respond env t (fs_readdirSync (tmpDir (this w))) = Return []) ->
    outcome (waitForDownload timeout) env w = Return (Some None).
Proof.
  intros timeout env w Hempty. unfold outcome.
  rewrite waitForDownload_loop. unfold loop_of.
  set (t := match timeout with Some t => t | None => 5000 end).
  rewrite bind_assoc, bind_logger_debug.
  set (w0 := logged _ w).
  destruct (poll_bound_enough t) as [Hpos Hfuel].
  destruct (poll_runs_out (poll_bound t) t 0 env w0) as
    (k & names & w1 & Hpoll & [t' Hans] & _).
  - intro t0. exists []. split; [apply Hempty | reflexivity].
  - exact Hpos.
  - exact Hfuel.
  - change (tmpDir (this w0)) with (tmpDir (this w)) in Hans.
    rewrite Hempty in Hans. injection Hans as <-.
    rewrite (bind_Return _ _ _ _ env w0 _ w1 Hpoll). reflexivity.
Qed.

(** C1: at the timeout the method does not return [undefined] when the
    first entry is a partial file.  With nothing but a download in progress
    in the staging directory, the loop gives up after the timeout, and the
    file with the partial suffix is copied to the destination directory and
    its path returned. *)
Theorem waitForDownload_delivers_partial_file_at_timeout :
  outcome (waitForDownload (Some 300)) (env_ok ["report.pdf.crdownload"] "")
    started_world
    = Return (Some (Some "/downloads/report.pdf.crdownload")) /\
  trace (snd (waitForDownload (Some 300)
                (env_ok ["report.pdf.crdownload"] "") started_world))
    = [EvSleep 100; Ev (fs_readdirSync "/app/temp");
       EvSleep 100; Ev (fs_readdirSync "/app/temp");
       EvSleep 100; Ev (fs_readdirSync "/app/temp");
       EvExistsSync "/downloads"; Ev (fs_statSync_isDirectory "/downloads");
       Ev (fs_copyFileSync "/app/temp/report.pdf.crdownload"
             "/downloads/report.pdf.crdownload")].
Proof. split; reflexivity. Qed.

(** ** [readUserInput] *)

Lemma deliver_returns :
  forall ev p env w, exists p' w', deliver ev p env w = (Return p', w').
Proof.
  intros [ | answer | s] p env w; unfold deliver.
  - destruct (timer p); eexists; eexists; reflexivity.
  - destruct (closed p); eexists; eexists; reflexivity.
  - eexists; eexists; reflexivity.
Qed.

(** A settled promise keeps its value. *)
Lemma deliver_settled :
  forall ev p env w v,
    settled p = Some v ->
    exists p' w', deliver ev p env w = (Return p', w') /\ settled p' = Some v.
Proof.
  intros [ | answer | s] p env w v Hv; unfold deliver.
  - destruct (timer p).
    + eexists; eexists. split; [reflexivity | ].
      unfold resolve. simpl. rewrite Hv. exact Hv.
    + eexists; eexists. split; [reflexivity | exact Hv].
  - destruct (closed p).
    + eexists; eexists. split; [reflexivity | exact Hv].
    + eexists; eexists. split; [reflexivity | ].
      unfold resolve. rewrite Hv. exact Hv.
  - eexists; eexists. split; [reflexivity | exact Hv].
Qed.

Lemma deliver_all_settled :
  forall evs p env w v,
    settled p = Some v ->
    exists p' w',
      deliver_all evs p env w = (Return p', w') /\ settled p' = Some v.
Proof.
  induction evs as [ | ev evs IH]; intros p env w v Hv.
  - exists p, w. split; [reflexivity | exact Hv].
  - destruct (deliver_settled ev p env w v Hv) as (p1 & w1 & Hd & Hv1).
    destruct (IH p1 env w1 v Hv1) as (p2 & w2 & Hd2 & Hv2).
    exists p2, w2. split; [ | exact Hv2].
    simpl. rewrite (bind_Return _ _ _ _ env w p1 w1 Hd). exact Hd2.
Qed.

(** Echoes settle nothing and leave the timer and the line reader as they
    are. *)
Lemma deliver_all_echoes :
  forall evs p env w,
    forallb is_echo evs = true ->
    exists p',
      deliver_all evs p env w = (Return p', w) /\
      settled p' = settled p /\ timer p' = timer p /\ closed p' = closed p.
Proof.
  induction evs as [ | ev evs IH]; intros p env w Hall.
  - exists p. repeat split.
  - simpl in Hall. apply andb_true_iff in Hall. destruct Hall as [Hev Hall].
    destruct ev as [ | answer | s]; try discriminate Hev.
    destruct (IH (writeToOutput s p) env w Hall) as (p' & Hd & Hs & Ht & Hc).
    exists p'. split; [ | repeat split; assumption].
    simpl. unfold bind. simpl. exact Hd.
Qed.

Lemma deliver_all_app :
  forall evs1 evs2 p env w,
    deliver_all (evs1 ++ evs2) p env w =
    bind (deliver_all evs1 p) (deliver_all evs2) env w.
Proof.
  induction evs1 as [ | ev evs1 IH]; intros evs2 p env w.
  - reflexivity.
  - simpl. rewrite bind_assoc.
    destruct (deliver ev p env w) as [[p1 | e] w1] eqn:Hd.
    + rewrite !(bind_Return _ _ _ _ env w p1 w1 Hd). apply IH.
    + rewrite !(bind_Throw _ _ _ _ env w e w1 Hd). reflexivity.
Qed.

(** The first event that can settle the promise settles it for good. *)
Lemma first_event_settles :
  forall echoes ev later p env w v,
    forallb is_echo echoes = true ->
    settled p = None ->
    timer p <> None ->
    closed p = false ->
    settles_with ev = Some v ->
    exists p' w',
      deliver_all (echoes ++ ev :: later) p env w = (Return p', w') /\
      settled p' = Some v.
Proof.
  intros echoes ev later p env w v Hechoes Hpending Htimer Hopen Hev.
  destruct (deliver_all_echoes echoes p env w Hechoes)
    as (p1 & Hd1 & Hs1 & Ht1 & Hc1).
  rewrite deliver_all_app, (bind_Return _ _ _ _ env w p1 w Hd1).
  assert (Hstep : exists p2 w2,
            deliver ev p1 env w = (Return p2, w2) /\ settled p2 = Some v).
  { destruct ev as [ | answer | s]; simpl in Hev.
    - injection Hev as <-. unfold deliver. rewrite Ht1.
      destruct (timer p) as [delay | ]; [ | contradiction].
      eexists; eexists. split; [reflexivity | ].
      unfold resolve. simpl. rewrite Hs1, Hpending. reflexivity.
    - injection Hev as <-. unfold deliver. rewrite Hc1, Hopen.
      eexists; eexists. split; [reflexivity | ].
      unfold on_answer, resolve. rewrite Hs1, Hpending. reflexivity.
    - discriminate Hev. }
  destruct Hstep as (p2 & w2 & Hd2 & Hs2).
  destruct (deliver_all_settled later p2 env w2 v Hs2) as (p3 & w3 & Hd3 & Hs3).
  exists p3, w3. split; [ | exact Hs3].
  simpl. rewrite (bind_Return _ _ _ _ env w p2 w2 Hd2). exact Hd3.
Qed.

(** C6: [readUserInput] arms a timer with the given timeout, 5 * 60 * 1000
    ms by default, and leaves a pending promise.  Of the answer and the
    timer, whichever comes first decides: an answer that comes first
    resolves the promise with exactly that answer, a timer that fires first
    resolves it with the empty string, and nothing that comes later changes
    the value. *)
Theorem readUserInput_first_event_decides :
  forall question password timeout env w,
    exists p w0,
      readUserInput question password timeout env w = (Return p, w0) /\
      timer p = Some (match timeout with
                      | Some t => t
                      | None => 5 * 60 * 1000
                      end) /\
      settled p = None /\
      (forall echoes answer later,
          forallb is_echo echoes = true ->
          exists p' w',
            deliver_all (echoes ++ Answer answer :: later) p env w0
              = (Return p', w') /\
            settled p' = Some answer) /\
      (forall echoes later,
          forallb is_echo echoes = true ->
          exists p' w',
            deliver_all (echoes ++ TimerFires :: later) p env w0
              = (Return p', w') /\
            settled p' = Some "").
Proof.
  intros question password timeout env w.
  eexists. eexists. split.
  - unfold readUserInput. rewrite bind_logger_debug. reflexivity.
  - split; [destruct timeout; reflexivity | ].
    split; [reflexivity | ]. split.
    + intros echoes answer later Hechoes.
      apply first_event_settles; try reflexivity; try assumption.
      simpl. discriminate.
    + intros echoes later Hechoes.
      apply first_event_settles; try reflexivity; try assumption.
      simpl. discriminate.
Qed.

Lemma readUserInput_first_event_decides_witness :
  exists p w0,
    readUserInput "Password: " (Some true) None (env_ok [] "") debug_world
      = (Return p, w0) /\
    timer p = Some 300000 /\
    (exists p' w',
        deliver_all ([WriteToOutput "h"] ++ Answer "hunter2" :: [TimerFires])
          p (env_ok [] "") w0 = (Return p', w') /\
        settled p' = Some "hunter2") /\
    (exists p' w',
        deliver_all ([] ++ TimerFires :: [Answer "too late"])
          p (env_ok [] "") w0 = (Return p', w') /\
        settled p' = Some "").
Proof.
  destruct (readUserInput_first_event_decides "Password: " (Some true) None
              (env_ok [] "") debug_world)
    as (p & w0 & Hrun & Htimer & _ & Hanswer & Htimeout).
  exists p, w0. split; [exact Hrun | ]. split; [exact Htimer | ]. split.
  - apply Hanswer. reflexivity.
  - apply Htimeout. reflexivity.
Defined.

(** * Further properties of the class *)

Lemma bind_modify_this :
  forall (B : Type) f (k : unit -> M B) env w,
    bind (modify_this f) k env w = k tt env (with_this f w).
Proof. reflexivity. Qed.

(** ** [run]: the paths through the [try] statement *)

(** X1: once the steps before the [try] statement have completed, the last
    call [run] makes is [browser.close] on the launched browser, whatever
    the crawl step, the dump and the close itself do. *)
Theorem run_ends_by_closing_browser :
  forall (C : Crawl) env w b w_s,
    run_setup env w = (Return b, w_s) ->
    exists before,
      trace (snd (run env w)) = before ++ [Ev (browser_close b)].
Proof.
  intros C env w b w_s Hs. exact (run_closes_after_setup C env w b w_s Hs).
Qed.

Lemma run_ends_by_closing_browser_witness :
  (exists before,
     trace (snd (@run crawl_fails (env_ok [] "<html>") debug_world))
       = before ++ [Ev (browser_close 1%nat)]) /\
  (exists before,
     trace (snd (@run crawl_idle (env_failing content_unavailable [] "")
                   debug_world))
       = before ++ [Ev (browser_close 1%nat)]).
Proof.
  split.
  - exact (run_ends_by_closing_browser crawl_fails (env_ok [] "<html>")
             debug_world 1%nat _ eq_refl).
  - exact (run_ends_by_closing_browser crawl_idle
             (env_failing content_unavailable [] "") debug_world 1%nat _
             eq_refl).
Defined.

(** X2: when the crawl step returns, [run] takes no dump: it only closes
    the browser, and it returns exactly when that close does; an error of
    the close is raised to the caller. *)
Theorem run_after_clean_crawl :
  forall (C : Crawl) env w b w_s w_c,
    run_setup env w = (Return b, w_s) ->
    crawl_step env w_s = (Return tt, w_c) ->
    outcome run env w = respond env (trace w_c) (browser_close b) /\
    trace (snd (run env w)) = trace w_c ++ [Ev (browser_close b)] /\
    console (snd (run env w)) = console w_c.
Proof.
  intros C env w b w_s w_c Hs Hc. unfold outcome, run.
  rewrite (bind_Return _ _ _ _ env w b w_s Hs).
  unfold run_guarded, try_finally, try_catch. rewrite Hc. unfold call.
  destruct (respond env (trace w_c) (browser_close b)) as [[] | e];
    repeat split.
Qed.

Lemma run_after_clean_crawl_witness :
  outcome (@run crawl_idle) (env_ok [] "") debug_world = Return tt /\
  outcome (@run crawl_idle) (env_failing close_refused [] "") debug_world
    = Throw (LibError "Protocol error: Connection closed").
Proof.
  split.
  - destruct (run_after_clean_crawl crawl_idle (env_ok [] "") debug_world
                1%nat _ _ eq_refl eq_refl) as [H _].
    rewrite H. reflexivity.
  - destruct (run_after_clean_crawl crawl_idle
                (env_failing close_refused [] "") debug_world
                1%nat _ _ eq_refl eq_refl) as [H _].
    rewrite H. reflexivity.
Defined.

(** X3: when the crawl step throws and the dump path is empty (the object
    was not created in debug mode), [run] asks the page for nothing and
    writes no file: it closes the browser and raises the error of the crawl
    step, unless the close fails, whose error is raised instead. *)
Theorem run_rethrows_without_dump :
  forall (C : Crawl) env w b w_s e w_c,
    run_setup env w = (Return b, w_s) ->
    crawl_step env w_s = (Throw e, w_c) ->
    truthy (errorDump (this w_c)) = false ->
    outcome run env w =
      match respond env (trace w_c) (browser_close b) with
      | Return _ => Throw e
      | Throw e' => Throw e'
      end /\
    trace (snd (run env w)) = trace w_c ++ [Ev (browser_close b)] /\
    console (snd (run env w)) = console w_c.
Proof.
  intros C env w b w_s e w_c Hs Hc Hd. unfold outcome, run.
  rewrite (bind_Return _ _ _ _ env w b w_s Hs).
  unfold run_guarded, try_finally, try_catch. rewrite Hc.
  unfold run_catch. rewrite bind_get_this, Hd, bind_ret.
  unfold throw, call.
  destruct (respond env (trace w_c) (browser_close b)) as [[] | e'];
    repeat split.
Qed.

Lemma run_rethrows_without_dump_witness :
  outcome (@run crawl_fails) (env_ok [] "<html>") plain_world
    = Throw (LibError "navigation failed") /\
  existsb (fun ev => match ev with
                     | Ev c => match c with
                               | fs_writeFileSync _ _ => true
                               | _ => false
                               end
                     | _ => false
                     end)
    (trace (snd (@run crawl_fails (env_ok [] "<html>") plain_world))) = false.
Proof.
  destruct (run_rethrows_without_dump crawl_fails (env_ok [] "<html>")
              plain_world 1%nat _ _ _ eq_refl eq_refl eq_refl) as (Ho & Ht & _).
  split.
  - rewrite Ho. reflexivity.
  - rewrite Ht. reflexivity.
Defined.

(** X4: when the launch fails, [run] raises its error at once: it makes no
    further call and leaves the object as it was. *)
Theorem run_stops_when_launch_fails :
  forall (C : Crawl) env w e,
    respond env (trace w)
      (puppeteer_launch (headless (this w)) (chrome_path (os_platform env))
         launch_args) = Throw e ->
    outcome run env w = Throw e /\
    trace (snd (run env w)) =
      trace w ++ [Ev (puppeteer_launch (headless (this w))
                        (chrome_path (os_platform env)) launch_args)] /\
    this (snd (run env w)) = this w.
Proof.
  intros C env w e He.
  destruct (launch_browser_step env w) as (w1 & Hl & Ht & Hthis).
  rewrite He in Hl. unfold outcome, run, run_setup. rewrite bind_assoc.
  rewrite (bind_Throw _ _ _ _ env w e w1 Hl). simpl.
  split; [reflexivity | split; assumption].
Qed.

Lemma run_stops_when_launch_fails_witness :
  outcome (@run crawl_idle) (env_failing launch_refused [] "") debug_world
    = Throw (LibError "Failed to launch the browser process") /\
  this (snd (@run crawl_idle (env_failing launch_refused [] "") debug_world))
    = this debug_world.
Proof.
  destruct (run_stops_when_launch_fails crawl_idle
              (env_failing launch_refused [] "") debug_world
              (LibError "Failed to launch the browser process") eq_refl)
    as (Ho & _ & Hthis).
  split; assumption.
Defined.

(** ** [run]: the steps before the [try] statement *)

Ltac run_steps_in H :=
  repeat first
    [ rewrite bind_assoc in H
    | rewrite bind_get_this in H
    | rewrite bind_logger_debug in H
    | rewrite bind_get_env in H
    | rewrite bind_modify_this in H
    | rewrite bind_ret in H ];
  cbv zeta in H.

(** X6: when the steps before the [try] statement complete, the object
    holds the first tab of the browser as [page] and
    [path.resolve(__dirname, 'temp')] as [tmpDir]; that directory was
    created (not recursively) and is the download path sent to the
    browser; the fields set by the constructor are unchanged; and the calls
    made are the launch, the tab listing, the directory creation and the
    three calls that redirect downloads, in this order. *)
Theorem run_setup_prepares_downloads :
  forall env w b w_s,
    run_setup env w = (Return b, w_s) ->
    let staging := path_resolve env [dirname env; "temp"] in
    exists p others target client,
      page (this w_s) = Some p /\
      tmpDir (this w_s) = staging /\
      same_settings w w_s /\
      trace w_s =
        trace w ++
        [Ev (puppeteer_launch (headless (this w))
               (chrome_path (os_platform env)) launch_args);
         Ev (browser_pages b);
         Ev (fs_mkdirSync staging false);
         Ev (page_target p);
         Ev (target_createCDPSession target);
         Ev (client_send client "Page.setDownloadBehavior"
               [("behavior", "allow");
                ("downloadPath", path_resolve env [staging])])] /\
      respond env
        (trace w ++
         [Ev (puppeteer_launch (headless (this w))
                (chrome_path (os_platform env)) launch_args)])
        (browser_pages b) = Return (p :: others).
Proof.
  intros env w b w_s H staging.
  unfold run_setup, launch_browser, prepare_downloads in H.
  run_steps_in H. rewrite bind_call in H. autorewrite with world in H.
  destruct (respond env (trace w) _) as [b0 | e] eqn:Hlaunch;
    [ | discriminate H].
  run_steps_in H. rewrite bind_call in H. autorewrite with world in H.
  destruct (respond env _ (browser_pages b0)) as [pages | e] eqn:Hpages;
    [ | discriminate H].
  run_steps_in H. rewrite bind_call in H.
  match type of H with
  | context [respond env ?t (fs_mkdirSync ?d false)] =>
      destruct (respond env t (fs_mkdirSync d false)) as [[] | e] eqn:Hmkdir;
        [ | discriminate H]
  end.
  run_steps_in H.
  destruct pages as [ | p others].
  - rewrite bind_this_page_undefined in H by reflexivity. discriminate H.
  - rewrite (bind_this_page _ _ _ _ p) in H by reflexivity.
    run_steps_in H. rewrite bind_call in H.
    match type of H with
    | context [respond env ?t (page_target p)] =>
        destruct (respond env t (page_target p)) as [target | e] eqn:Htarget;
          [ | discriminate H]
    end.
    run_steps_in H. rewrite bind_call in H.
    match type of H with
    | context [respond env ?t (target_createCDPSession target)] =>
        destruct (respond env t (target_createCDPSession target))
          as [client | e] eqn:Hclient; [ | discriminate H]
    end.
    run_steps_in H. rewrite bind_call in H.
    match type of H with
    | context [respond env ?t (client_send client ?m ?ps)] =>
        destruct (respond env t (client_send client m ps))
          as [[] | e] eqn:Hsend; [ | discriminate H]
    end.
    unfold ret in H. injection H as <- <-.
    exists p, others, target, client.
    split; [reflexivity | ]. split; [reflexivity | ].
    split; [repeat split | ].
    split; [ | exact Hpages].
    simpl. rewrite <- !app_assoc. reflexivity.
Qed.

Lemma run_setup_prepares_downloads_witness :
  exists p others target client,
    page (this (snd (run_setup (env_ok [] "") debug_world))) = Some p /\
    tmpDir (this (snd (run_setup (env_ok [] "") debug_world))) = "/app/temp" /\
    same_settings debug_world (snd (run_setup (env_ok [] "") debug_world)) /\
    trace (snd (run_setup (env_ok [] "") debug_world)) =
      trace debug_world ++
      [Ev (puppeteer_launch true (Some "/usr/bin/google-chrome") launch_args);
       Ev (browser_pages 1%nat);
       Ev (fs_mkdirSync "/app/temp" false);
       Ev (page_target p);
       Ev (target_createCDPSession target);
       Ev (client_send client "Page.setDownloadBehavior"
             [("behavior", "allow"); ("downloadPath", "/app/temp")])] /\
    respond (env_ok [] "")
      (trace debug_world ++
       [Ev (puppeteer_launch true (Some "/usr/bin/google-chrome") launch_args)])
      (browser_pages 1%nat) = Return (p :: others).
Proof.
  exact (run_setup_prepares_downloads (env_ok [] "") debug_world 1%nat _
           eq_refl).
Defined.

Ltac run_steps :=
  repeat first
    [ rewrite bind_assoc
    | rewrite bind_get_this
    | rewrite bind_logger_debug
    | rewrite bind_get_env
    | rewrite bind_modify_this
    | rewrite bind_ret ];
  cbv zeta.

(** X5: when the launched browser lists no tab, [page] stays [undefined]:
    [run] still creates the staging directory, then raises a [TypeError]
    on reading the tab's target, before the [try] statement, and never
    closes the browser. *)
Theorem run_without_tab_raises_TypeError :
  forall (C : Crawl) env w b,
    let launch := puppeteer_launch (headless (this w))
                    (chrome_path (os_platform env)) launch_args in
    let staging := path_resolve env [dirname env; "temp"] in
    respond env (trace w) launch = Return b ->
    respond env (trace w ++ [Ev launch]) (browser_pages b) = Return [] ->
    respond env ((trace w ++ [Ev launch]) ++ [Ev (browser_pages b)])
      (fs_mkdirSync staging false) = Return tt ->
    outcome run env w
      = Throw (TypeError "Cannot read properties of undefined") /\
    trace (snd (run env w)) =
      trace w ++ [Ev launch; Ev (browser_pages b);
                  Ev (fs_mkdirSync staging false)] /\
    page (this (snd (run env w))) = None.
Proof.
  intros C env w b launch staging Hlaunch Hpages Hmkdir.
  unfold outcome, run, run_setup, launch_browser, prepare_downloads.
  run_steps. rewrite bind_call. autorewrite with world.
  fold launch. rewrite Hlaunch.
  run_steps. rewrite bind_call. autorewrite with world. rewrite Hpages.
  run_steps. rewrite bind_call. autorewrite with world.
  match goal with
  | |- context [respond env ?t (fs_mkdirSync ?d false)] =>
      replace (respond env t (fs_mkdirSync d false)) with (@Return unit tt)
        by (symmetry; rewrite <- app_one_cons; exact Hmkdir)
  end.
  run_steps.
  rewrite bind_this_page_undefined by reflexivity.
  simpl. split; [reflexivity | ]. split; [ | reflexivity].
  rewrite <- !app_assoc. reflexivity.
Qed.

Lemma run_without_tab_raises_TypeError_witness :
  outcome (@run crawl_idle) env_no_tab debug_world
    = Throw (TypeError "Cannot read properties of undefined") /\
  existsb is_browser_close
    (trace (snd (@run crawl_idle env_no_tab debug_world))) = false.
Proof.
  destruct (run_without_tab_raises_TypeError crawl_idle env_no_tab
              debug_world 1%nat eq_refl eq_refl eq_refl) as (Ho & Ht & _).
  split; [exact Ho | ]. rewrite Ht. reflexivity.
Defined.

(** X7: on a platform other than linux, win32 and darwin no executable is
    chosen: [run] launches the browser with [executablePath] undefined,
    and with the two sandbox-disabling arguments all the same. *)
Theorem run_on_other_platform_has_no_executable :
  forall (C : Crawl) env w,
    os_platform env <> "linux" ->
    os_platform env <> "win32" ->
    os_platform env <> "darwin" ->
    exists rest,
      issues run env w
        (Ev (puppeteer_launch (headless (this w)) None
               ["--no-sandbox"; "--disable-setuid-sandbox"]) :: rest).
Proof.
  intros C env w Hlinux Hwin Hmac.
  destruct (run_starts_with_launch C env w) as [rest Hr].
  exists rest. unfold chrome_path in Hr.
  apply String.eqb_neq in Hlinux, Hwin, Hmac.
  rewrite Hlinux, Hwin, Hmac in Hr. exact Hr.
Qed.

Lemma run_on_other_platform_has_no_executable_witness :
  exists rest,
    issues (@run crawl_idle) (env_on "freebsd") debug_world
      (Ev (puppeteer_launch true None
             ["--no-sandbox"; "--disable-setuid-sandbox"]) :: rest).
Proof.
  apply (run_on_other_platform_has_no_executable crawl_idle
           (env_on "freebsd") debug_world); discriminate.
Defined.

(** ** The pass-through operations: errors and what is left undone *)

Lemma bind_waitForTimeout_undefined :
  forall (B : Type) ms (k : unit -> M B) env w,
    page (this w) = None ->
    bind (waitForTimeout ms) k env w =
    (Throw (TypeError "Cannot read properties of undefined"),
     logged ("waitForTimeout: " ++ string_of_Z ms)%string w).
Proof.
  intros B ms k env w Hp. unfold waitForTimeout.
  rewrite bind_assoc, bind_logger_debug, bind_assoc.
  rewrite bind_this_page_undefined by exact Hp. reflexivity.
Qed.

(** X8: before [run] has set the tab, each of the seven operations on the
    page raises a [TypeError] and makes no call on the libraries; that
    holds for [exists] too, whose [try] block is not reached. *)
Theorem operations_need_the_tab :
  forall env w,
    page (this w) = None ->
    (forall url, fails_on_undefined_page (goto url) env w) /\
    (forall selector, fails_on_undefined_page (exists_ selector) env w) /\
    (forall selector options,
        fails_on_undefined_page (click selector options) env w) /\
    (forall selector text options,
        fails_on_undefined_page (type selector text options) env w) /\
    (forall ms, fails_on_undefined_page (waitForTimeout ms) env w) /\
    (forall selector, fails_on_undefined_page (waitForSelector selector) env w) /\
    (forall selector, fails_on_undefined_page (waitAndClick selector) env w).
Proof.
  intros env w Hp. unfold fails_on_undefined_page, outcome, issues.
  split; [ | split; [ | split; [ | split; [ | split; [ | split]]]]].
  - intro url. unfold goto. rewrite bind_logger_debug.
    rewrite bind_this_page_undefined by exact Hp.
    split; [reflexivity | simpl; symmetry; apply app_nil_r].
  - intro selector. unfold exists_. rewrite bind_logger_debug.
    rewrite bind_waitForTimeout_undefined by exact Hp.
    split; [reflexivity | simpl; symmetry; apply app_nil_r].
  - intros selector options. unfold click. rewrite bind_logger_debug.
    rewrite bind_waitForTimeout_undefined by exact Hp.
    split; [reflexivity | simpl; symmetry; apply app_nil_r].
  - intros selector text options. unfold type. rewrite bind_logger_debug.
    rewrite bind_waitForTimeout_undefined by exact Hp.
    split; [reflexivity | simpl; symmetry; apply app_nil_r].
  - intro ms. unfold waitForTimeout. rewrite bind_logger_debug.
    rewrite bind_this_page_undefined by exact Hp.
    split; [reflexivity | simpl; symmetry; apply app_nil_r].
  - intro selector. unfold waitForSelector. rewrite bind_logger_debug.
    rewrite bind_this_page_undefined by exact Hp.
    split; [reflexivity | simpl; symmetry; apply app_nil_r].
  - intro selector. unfold waitAndClick. rewrite bind_logger_debug.
    rewrite bind_this_page_undefined by exact Hp.
    split; [reflexivity | simpl; symmetry; apply app_nil_r].
Qed.

Lemma operations_need_the_tab_witness :
  fails_on_undefined_page (goto "https://example.com/") (env_ok [] "")
    debug_world /\
  fails_on_undefined_page (waitAndClick "#login") (env_ok [] "") debug_world.
Proof.
  destruct (operations_need_the_tab (env_ok [] "") debug_world eq_refl)
    as (Hgoto & _ & _ & _ & _ & _ & Hwait).
  split; [apply Hgoto | apply Hwait].
Defined.

Lemma delay_error_stops :
  forall (A : Type) (k : unit -> M A) env w p e,
    page (this w) = Some p ->
    respond env (trace w) (page_waitForTimeout p 1000) = Throw e ->
    stops_at_delay (bind (waitForTimeout 1000) k) env w p e.
Proof.
  intros A k env w p e Hp He. unfold stops_at_delay, outcome, issues.
  rewrite (bind_waitForTimeout _ _ _ _ _ p) by exact Hp. cbv zeta.
  rewrite He. split; reflexivity.
Qed.

(** X9: when the one-second wait in front of [click], [type] or [exists]
    is rejected, the operation raises that error and does nothing else: no
    click, no typing, no selector wait. *)
Theorem rejected_delay_stops_the_operation :
  forall env w p e,
    page (this w) = Some p ->
    respond env (trace w) (page_waitForTimeout p 1000) = Throw e ->
    (forall selector options,
        stops_at_delay (click selector options) env w p e) /\
    (forall selector text options,
        stops_at_delay (type selector text options) env w p e) /\
    (forall selector, stops_at_delay (exists_ selector) env w p e).
Proof.
  intros env w p e Hp He.
  split; [ | split]; intros; unfold click, type, exists_;
    unfold stops_at_delay, outcome, issues;
    rewrite bind_logger_debug;
    apply (delay_error_stops _ _ env (logged _ w) p e Hp He).
Qed.

Lemma rejected_delay_stops_the_operation_witness :
  stops_at_delay (click "#submit" None) (env_failing delay_rejected [] "")
    started_world 7%nat (LibError "Session closed") /\
  stops_at_delay (type "#user" "alice" None)
    (env_failing delay_rejected [] "") started_world 7%nat
    (LibError "Session closed").
Proof.
  destruct (rejected_delay_stops_the_operation
              (env_failing delay_rejected [] "") started_world 7%nat
              (LibError "Session closed") eq_refl eq_refl)
    as (Hclick & Htype & _).
  split; [apply Hclick | apply Htype].
Defined.

Lemma promise_all2_outcome :
  forall (A B : Type) (c1 : Call A) (c2 : Call B) env w,
    let r1 := respond env (trace w) c1 in
    let r2 := respond env (trace w ++ [Ev c1]) c2 in
    (fst (promise_all2 c1 c2 env w) = Return tt <->
     (exists a, r1 = Return a) /\ (exists b, r2 = Return b)) /\
    (forall e b, r1 = Throw e -> r2 = Return b ->
       fst (promise_all2 c1 c2 env w) = Throw e) /\
    (forall a e, r1 = Return a -> r2 = Throw e ->
       fst (promise_all2 c1 c2 env w) = Throw e) /\
    (forall e1 e2, r1 = Throw e1 -> r2 = Throw e2 ->
       fst (promise_all2 c1 c2 env w)
         = Throw (if rejects_first env (trace w) then e1 else e2)).
Proof.
  intros A B c1 c2 env w r1 r2. unfold promise_all2.
  change (respond env (trace w) c1) with r1.
  change (respond env (trace (with_trace (trace w ++ [Ev c1]) w)) c2) with r2.
  destruct r1 as [a | e1]; destruct r2 as [b | e2]; simpl;
    (split;
     [ split;
       [ intro H; try discriminate H; split; eexists; reflexivity
       | intros [[? H1] [? H2]];
         try discriminate H1; try discriminate H2; reflexivity ]
     | split; [ | split]; intros; try congruence;
       repeat match goal with
              | H : Throw _ = Throw _ |- _ => injection H as <-
              end;
       reflexivity ]).
Qed.

(** X10: [goto] sends the navigation request and the wait for the
    navigation together.  It returns exactly when both succeed; when one of
    them is rejected [goto] raises that error, and when both are, the error
    of the one rejected first. *)
Theorem goto_needs_both_promises :
  forall url env w p,
    page (this w) = Some p ->
    let r1 := respond env (trace w) (page_goto p url) in
    let r2 := respond env (trace w ++ [Ev (page_goto p url)])
                (page_waitForNavigation p domcontentloaded) in
    (outcome (goto url) env w = Return tt <->
     (exists a, r1 = Return a) /\ (exists b, r2 = Return b)) /\
    (forall e b, r1 = Throw e -> r2 = Return b ->
       outcome (goto url) env w = Throw e) /\
    (forall a e, r1 = Return a -> r2 = Throw e ->
       outcome (goto url) env w = Throw e) /\
    (forall e1 e2, r1 = Throw e1 -> r2 = Throw e2 ->
       outcome (goto url) env w
         = Throw (if rejects_first env (trace w) then e1 else e2)).
Proof.
  intros url env w p Hp r1 r2. unfold outcome, goto.
  rewrite bind_logger_debug.
  rewrite (bind_this_page _ _ _ _ p) by exact Hp.
  exact (promise_all2_outcome _ _ (page_goto p url)
           (page_waitForNavigation p domcontentloaded) env
           (logged ("goto: " ++ url)%string w)).
Qed.

Lemma goto_needs_both_promises_witness :
  outcome (goto "https://example.com/") (env_ok [] "") started_world
    = Return tt /\
  outcome (goto "https://example.com/") (env_failing navigation_stuck [] "")
    started_world = Throw (LibError "TimeoutError: Navigation timeout").
Proof.
  split.
  - destruct (goto_needs_both_promises "https://example.com/" (env_ok [] "")
                started_world 7%nat eq_refl) as [Hiff _].
    apply Hiff. split; exists tt; reflexivity.
  - destruct (goto_needs_both_promises "https://example.com/"
                (env_failing navigation_stuck [] "")
                started_world 7%nat eq_refl) as (_ & _ & Hnav & _).
    exact (Hnav tt _ eq_refl eq_refl).
Defined.

(** X11: [waitForSelector] and [waitAndClick] do not absorb the error of
    the selector wait, unlike [exists]: when the wait throws, both raise
    that error, and [waitAndClick] evaluates nothing in the page.  When the
    wait returns, [waitForSelector] returns its element handle and
    [waitAndClick] goes on to the click in the page and completes as that
    call does. *)
Theorem selector_wait_errors_propagate :
  forall selector env w p,
    page (this w) = Some p ->
    let wait := page_waitForSelector p selector 5000 in
    (forall e,
        respond env (trace w) wait = Throw e ->
        outcome (waitForSelector selector) env w = Throw e /\
        outcome (waitAndClick selector) env w = Throw e /\
        issues (waitAndClick selector) env w [Ev wait]) /\
    (forall h,
        respond env (trace w) wait = Return h ->
        outcome (waitForSelector selector) env w = Return h /\
        outcome (waitAndClick selector) env w
          = respond env (trace w ++ [Ev wait])
              (page_evaluate_click p selector) /\
        issues (waitAndClick selector) env w
          [Ev wait; Ev (page_evaluate_click p selector)]).
Proof.
  intros selector env w p Hp wait.
  unfold outcome, issues, waitForSelector, waitAndClick.
  rewrite !bind_logger_debug.
  rewrite !(bind_this_page _ _ _ _ p) by exact Hp.
  rewrite bind_call. autorewrite with world. fold wait.
  split.
  - intros e He. unfold call. autorewrite with world. fold wait.
    rewrite He. repeat split.
  - intros h Hh. unfold call at 1. autorewrite with world. fold wait.
    rewrite Hh.
    rewrite (bind_this_page _ _ _ _ p) by exact Hp.
    unfold call. autorewrite with world.
    split; [reflexivity | ]. split; reflexivity.
Qed.

Lemma selector_wait_errors_propagate_witness :
  outcome (waitAndClick "#login") (env_failing selector_missing [] "")
    started_world = Throw (LibError "TimeoutError: waiting for selector") /\
  outcome (waitForSelector "#login") (env_ok [] "") started_world
    = Return (Some 4%nat).
Proof.
  split.
  - destruct (selector_wait_errors_propagate "#login"
                (env_failing selector_missing [] "") started_world 7%nat
                eq_refl) as [Herr _].
    destruct (Herr _ eq_refl) as (_ & H & _). exact H.
  - destruct (selector_wait_errors_propagate "#login" (env_ok [] "")
                started_world 7%nat eq_refl) as [_ Hok].
    destruct (Hok _ eq_refl) as (H & _). exact H.
Defined.

(** ** What the operations leave alone *)

Ltac frame_steps R Rrefl Rtrans :=
  repeat first
    [ apply (preserves_bind R Rtrans); [ | intro]
    | apply (preserves_try_catch R Rtrans); [ | intro]
    | apply (preserves_try_finally R Rtrans)
    | apply preserves_if
    | apply (preserves_ret R Rrefl)
    | apply (preserves_throw R Rrefl)
    | apply (preserves_get_this R Rrefl)
    | apply (preserves_get_env R Rrefl)
    | apply (preserves_this_page R Rrefl)
    | solve [auto with frame] ].

Create HintDb frame.

Lemma same_this_refl : forall w, same_this w w.
Proof. intro w. reflexivity. Qed.

Lemma same_this_trans :
  forall a b c, same_this a b -> same_this b c -> same_this a c.
Proof. unfold same_this. intros a b c H1 H2. congruence. Qed.

Lemma same_this_call :
  forall (T : Type) (c : Call T), preserves same_this (call c).
Proof. intros T c env w. reflexivity. Qed.

Lemma same_this_existsSync :
  forall path, preserves same_this (existsSync path).
Proof. intros path env w. reflexivity. Qed.

Lemma same_this_sleep : forall ms, preserves same_this (sleep ms).
Proof. intros ms env w. reflexivity. Qed.

Lemma same_this_logger_debug :
  forall msg, preserves same_this (logger_debug msg).
Proof. intros msg env w. reflexivity. Qed.

Lemma same_this_console_log :
  forall msg, preserves same_this (console_log msg).
Proof. intros msg env w. reflexivity. Qed.

Lemma same_this_promise_all2 :
  forall (A B : Type) (c1 : Call A) (c2 : Call B),
    preserves same_this (promise_all2 c1 c2).
Proof.
  intros A B c1 c2 env w. unfold promise_all2, same_this.
  destruct (respond env (trace w) c1);
    destruct (respond env (trace (with_trace (trace w ++ [Ev c1]) w)) c2);
    reflexivity.
Qed.

#[local] Hint Resolve same_this_refl same_this_call same_this_existsSync
  same_this_sleep same_this_logger_debug same_this_console_log
  same_this_promise_all2 : frame.

Lemma same_this_poll :
  forall fuel timeout elapsed, preserves same_this (poll fuel timeout elapsed).
Proof.
  intros fuel timeout elapsed env w. apply poll_this.
Qed.

Lemma same_this_waitForDownload :
  forall timeout, preserves same_this (waitForDownload timeout).
Proof.
  intro timeout. unfold waitForDownload, waitForDownload_fuel.
  apply (preserves_bind same_this same_this_trans);
    [apply same_this_logger_debug | intros _].
  apply (preserves_bind same_this same_this_trans);
    [apply same_this_poll | intros [downloadFile | ]].
  - apply (preserves_bind same_this same_this_trans).
    + destruct downloadFile as [name | ]; unfold deliver_download, when;
        frame_steps same_this same_this_refl same_this_trans.
    + intro path. apply (preserves_ret same_this same_this_refl).
  - apply (preserves_ret same_this same_this_refl).
Qed.

(** X12: none of the operations on the page, nor [debug],
    [waitForDownload] and [readUserInput], writes a field of the object:
    after each of them the object is what it was, whether the operation
    returned or threw.  Only [run] (and the subclass) changes it. *)
Theorem operations_leave_the_object_alone :
  (forall url, preserves same_this (goto url)) /\
  (forall selector, preserves same_this (exists_ selector)) /\
  (forall selector options, preserves same_this (click selector options)) /\
  (forall selector text options,
      preserves same_this (type selector text options)) /\
  (forall ms, preserves same_this (waitForTimeout ms)) /\
  (forall selector, preserves same_this (waitForSelector selector)) /\
  (forall selector, preserves same_this (waitAndClick selector)) /\
  (forall message args, preserves same_this (debug message args)) /\
  (forall timeout, preserves same_this (waitForDownload timeout)) /\
  (forall question password timeout,
      preserves same_this (readUserInput question password timeout)).
Proof.
  repeat match goal with |- _ /\ _ => split end; intros;
    try apply same_this_waitForDownload;
    unfold goto, exists_, click, type, waitForSelector, waitAndClick, debug,
      readUserInput, waitForTimeout;
    frame_steps same_this same_this_refl same_this_trans.
Qed.

Lemma same_settings_refl : forall w, same_settings w w.
Proof. intro w. repeat split. Qed.

Lemma same_settings_trans :
  forall a b c, same_settings a b -> same_settings b c -> same_settings a c.
Proof.
  unfold same_settings. intros a b c (H1 & H2 & H3 & H4) (K1 & K2 & K3 & K4).
  repeat split; congruence.
Qed.

Lemma same_this_same_settings :
  forall (A : Type) (m : M A),
    preserves same_this m -> preserves same_settings m.
Proof.
  intros A m H env w. unfold same_settings. rewrite (H env w).
  repeat split.
Qed.

Lemma same_settings_set_page :
  forall p, preserves same_settings (modify_this (set_page p)).
Proof. intros p env w. repeat split. Qed.

Lemma same_settings_set_tmpDir :
  forall d, preserves same_settings (modify_this (set_tmpDir d)).
Proof. intros d env w. repeat split. Qed.

Lemma same_settings_call :
  forall (T : Type) (c : Call T), preserves same_settings (call c).
Proof. intros T c. apply same_this_same_settings, same_this_call. Qed.

Lemma same_settings_logger_debug :
  forall msg, preserves same_settings (logger_debug msg).
Proof. intro msg. apply same_this_same_settings, same_this_logger_debug. Qed.

Lemma same_settings_console_log :
  forall msg, preserves same_settings (console_log msg).
Proof. intro msg. apply same_this_same_settings, same_this_console_log. Qed.

#[local] Hint Resolve same_settings_refl same_settings_set_page
  same_settings_set_tmpDir same_settings_call same_settings_logger_debug
  same_settings_console_log : frame.

(** X13: of the fields of the object, [run] itself writes only [page] and
    [tmpDir].  When the subclass's [crawl] leaves [headless],
    [downloadDir], [hasError] and [errorDump] as they are, so does [run],
    on every path; in particular the dump path after [run] is still the
    one the constructor chose. *)
Theorem run_writes_only_page_and_tmpDir :
  forall (C : Crawl),
    preserves same_settings crawl ->
    preserves same_settings run /\
    forall env w debug flag dir,
      errorDump (this (snd (run env (new_Crawler debug flag dir w))))
        = (if debug then "error.html" else "") /\
      downloadDir (this (snd (run env (new_Crawler debug flag dir w)))) = dir.
Proof.
  intros C Hcrawl.
  assert (Hrun : preserves same_settings run).
  { unfold run, run_setup, launch_browser, prepare_downloads, run_guarded,
      crawl_step, run_catch.
    frame_steps same_settings same_settings_refl same_settings_trans;
      exact Hcrawl. }
  split; [exact Hrun | ].
  intros env w debug flag dir.
  destruct (Hrun env (new_Crawler debug flag dir w)) as (_ & Hd & _ & He).
  split; [rewrite He | rewrite Hd]; reflexivity.
Qed.

Lemma run_writes_only_page_and_tmpDir_witness :
  errorDump (this (snd (@run crawl_fails (env_ok [] "<html>") debug_world)))
    = "error.html" /\
  downloadDir (this (snd (@run crawl_fails (env_ok [] "<html>") debug_world)))
    = "/downloads".
Proof.
  assert (H : preserves same_settings (@crawl crawl_fails)).
  { intros env w. repeat split. }
  exact (proj2 (run_writes_only_page_and_tmpDir crawl_fails H)
           (env_ok [] "<html>") empty_world true true "/downloads").
Defined.

(** *** The logger at level "off" *)

Lemma stays_quiet_refl : forall w, stays_quiet w w.
Proof. intros w H. split; [exact H | reflexivity]. Qed.

Lemma stays_quiet_trans :
  forall a b c, stays_quiet a b -> stays_quiet b c -> stays_quiet a c.
Proof.
  unfold stays_quiet. intros a b c H1 H2 Ha.
  destruct (H1 Ha) as [Hb Hlog1]. destruct (H2 Hb) as [Hc Hlog2].
  split; [exact Hc | congruence].
Qed.

Lemma stays_quiet_call :
  forall (T : Type) (c : Call T), preserves stays_quiet (call c).
Proof. intros T c env w H. split; [exact H | reflexivity]. Qed.

Lemma stays_quiet_existsSync :
  forall path, preserves stays_quiet (existsSync path).
Proof. intros path env w H. split; [exact H | reflexivity]. Qed.

Lemma stays_quiet_sleep : forall ms, preserves stays_quiet (sleep ms).
Proof. intros ms env w H. split; [exact H | reflexivity]. Qed.

Lemma stays_quiet_logger_debug :
  forall msg, preserves stays_quiet (logger_debug msg).
Proof.
  intros msg env w H. split; [exact H | ].
  simpl. rewrite H. reflexivity.
Qed.

Lemma stays_quiet_console_log :
  forall msg, preserves stays_quiet (console_log msg).
Proof. intros msg env w H. split; [exact H | reflexivity]. Qed.

Lemma stays_quiet_modify_this :
  forall f, preserves stays_quiet (modify_this f).
Proof. intros f env w H. split; [exact H | reflexivity]. Qed.

Lemma stays_quiet_promise_all2 :
  forall (A B : Type) (c1 : Call A) (c2 : Call B),
    preserves stays_quiet (promise_all2 c1 c2).
Proof.
  intros A B c1 c2 env w H. unfold promise_all2.
  destruct (respond env (trace w) c1);
    destruct (respond env (trace (with_trace (trace w ++ [Ev c1]) w)) c2);
    (split; [exact H | reflexivity]).
Qed.

#[local] Hint Resolve stays_quiet_refl stays_quiet_call
  stays_quiet_existsSync stays_quiet_sleep stays_quiet_logger_debug
  stays_quiet_console_log stays_quiet_modify_this stays_quiet_promise_all2
  : frame.

Lemma stays_quiet_poll :
  forall fuel timeout elapsed, preserves stays_quiet (poll fuel timeout elapsed).
Proof.
  induction fuel as [ | fuel IH]; intros timeout elapsed.
  - apply (preserves_ret stays_quiet stays_quiet_refl).
  - rewrite poll_S.
    frame_steps stays_quiet stays_quiet_refl stays_quiet_trans.
Qed.

Lemma stays_quiet_waitForDownload :
  forall timeout, preserves stays_quiet (waitForDownload timeout).
Proof.
  intro timeout. unfold waitForDownload, waitForDownload_fuel.
  apply (preserves_bind stays_quiet stays_quiet_trans);
    [apply stays_quiet_logger_debug | intros _].
  apply (preserves_bind stays_quiet stays_quiet_trans);
    [apply stays_quiet_poll | intros [downloadFile | ]].
  - apply (preserves_bind stays_quiet stays_quiet_trans).
    + destruct downloadFile as [name | ]; unfold deliver_download, when;
        frame_steps stays_quiet stays_quiet_refl stays_quiet_trans.
    + intro path. apply (preserves_ret stays_quiet stays_quiet_refl).
  - apply (preserves_ret stays_quiet stays_quiet_refl).
Qed.

(** X14: an object created without debug mode logs nothing.  The
    constructor sets the level of the logger to "off", and from a world
    with the logger off every operation of the class, and [run] with a
    subclass that does not touch the logger, leaves the log as it was. *)
Theorem no_debug_no_log :
  (forall flag dir w,
      logger_level_debug (new_Crawler false flag dir w) = false) /\
  (forall url, preserves stays_quiet (goto url)) /\
  (forall selector, preserves stays_quiet (exists_ selector)) /\
  (forall selector options, preserves stays_quiet (click selector options)) /\
  (forall selector text options,
      preserves stays_quiet (type selector text options)) /\
  (forall ms, preserves stays_quiet (waitForTimeout ms)) /\
  (forall selector, preserves stays_quiet (waitForSelector selector)) /\
  (forall selector, preserves stays_quiet (waitAndClick selector)) /\
  (forall message args, preserves stays_quiet (debug message args)) /\
  (forall timeout, preserves stays_quiet (waitForDownload timeout)) /\
  (forall question password timeout,
      preserves stays_quiet (readUserInput question password timeout)) /\
  (forall (C : Crawl),
      preserves stays_quiet crawl -> preserves stays_quiet run).
Proof.
  split; [reflexivity | ].
  repeat match goal with |- _ /\ _ => split end; intros;
    try apply stays_quiet_waitForDownload;
    unfold goto, exists_, click, type, waitForSelector, waitAndClick, debug,
      readUserInput, waitForTimeout, run, run_setup, launch_browser,
      prepare_downloads, run_guarded, crawl_step, run_catch;
    frame_steps stays_quiet stays_quiet_refl stays_quiet_trans;
    assumption.
Qed.

Lemma no_debug_no_log_witness :
  log (snd (@run crawl_fails (env_ok [] "<html>") plain_world))
    = log plain_world /\
  log (snd (@run crawl_fails (env_ok [] "<html>") debug_world))
    = ["Run crawler: headless=true"; "temDir: /app/temp"; "Start crawl"].
Proof.
  split; [ | reflexivity].
  destruct no_debug_no_log as (_ & _ & _ & _ & _ & _ & _ & _ & _ & _ & _ & Hrun).
  assert (Hc : preserves stays_quiet (@crawl crawl_fails)).
  { intros env w H. split; [exact H | reflexivity]. }
  exact (proj2 (Hrun crawl_fails Hc (env_ok [] "<html>") plain_world eq_refl)).
Defined.

(** ** [waitForDownload]: how long it waits, and its errors *)

(** Whatever the listings are, the loop makes [k] rounds for some
    [k >= 1] that does not pass the timeout: a further round is made only
    while [elapsed < timeout]. *)
Lemma poll_rounds :
  forall fuel timeout elapsed env w,
    (1 <= fuel)%nat ->
    timeout - elapsed <= 100 * Z.of_nat fuel ->
    exists k : nat,
      trace (snd (poll fuel timeout elapsed env w))
        = trace w ++ polls k (tmpDir (this w)) /\
      (1 <= k)%nat /\
      (k = 1%nat \/ elapsed + 100 * (Z.of_nat k - 1) < timeout).
Proof.
  induction fuel as [ | fuel IH]; intros timeout elapsed env w Hpos Hfuel.
  - inversion Hpos.
  - rewrite poll_step. cbv zeta.
    destruct (respond env _ (fs_readdirSync (tmpDir (this w)))) as [names | e].
    + destruct (still_waiting (elapsed + 100) timeout (nth_error names 0))
        eqn:Hwait.
      * unfold still_waiting in Hwait. apply andb_true_iff in Hwait.
        destruct Hwait as [Hlt _]. apply Z.ltb_lt in Hlt.
        match goal with
        | |- context [poll fuel timeout (elapsed + 100) env ?w1] =>
            destruct (IH timeout (elapsed + 100) env w1) as (k & Ht & Hk & Hlow);
              [lia | lia | ]
        end.
        exists (S k). split.
        { rewrite Ht. rewrite trace_with_trace, <- !app_assoc. reflexivity. }
        split; [lia | ]. right. destruct Hlow as [-> | Hlow]; lia.
      * exists 1%nat. split.
        { simpl. rewrite <- app_assoc. reflexivity. }
        split; [lia | left; reflexivity].
    + exists 1%nat. split.
      { simpl. rewrite <- app_assoc. reflexivity. }
      split; [lia | left; reflexivity].
Qed.

(** What follows the loop never sleeps. *)
Lemma deliver_download_never_sleeps :
  forall downloadFile env w,
    exists rest,
      trace (snd (deliver_download downloadFile env w)) = trace w ++ rest /\
      existsb is_sleep rest = false.
Proof.
  intros [name | ] env w; [ | exists []; split; [symmetry; apply app_nil_r | reflexivity]].
  unfold deliver_download.
  destruct (falsy (Some name));
    [exists []; split; [symmetry; apply app_nil_r | reflexivity] | ].
  rewrite bind_get_this, bind_existsSync.
  assert (Hcopy : forall w1 pre,
            trace w1 = trace w ++ pre -> existsb is_sleep pre = false ->
            exists rest,
              trace (snd (bind (get_env path_resolve)
                            (fun resolve =>
                               call (fs_copyFileSync (resolve [tmpDir (this w); name])
                                       (resolve [downloadDir (this w); name])) ;;
                               ret (Some (resolve [downloadDir (this w); name])))
                            env w1)) = trace w ++ rest /\
              existsb is_sleep rest = false).
  { intros w1 pre Hw1 Hpre. rewrite bind_get_env, bind_call.
    eexists (pre ++ [Ev (fs_copyFileSync _ _)]). split.
    - destruct (respond env (trace w1) _); simpl; rewrite Hw1, <- app_assoc;
        reflexivity.
    - rewrite existsb_app, Hpre. reflexivity. }
  assert (Hmk : forall (missing : bool) w1 pre,
            trace w1 = trace w ++ pre -> existsb is_sleep pre = false ->
            exists rest,
              trace (snd (bind (when missing
                                  (call (fs_mkdirSync (downloadDir (this w)) true)))
                            (fun _ =>
                               resolve <- get_env path_resolve ;;
                               call (fs_copyFileSync (resolve [tmpDir (this w); name])
                                       (resolve [downloadDir (this w); name])) ;;
                               ret (Some (resolve [downloadDir (this w); name])))
                            env w1)) = trace w ++ rest /\
              existsb is_sleep rest = false).
  { intros [ | ] w1 pre Hw1 Hpre; unfold when.
    - rewrite bind_call.
      destruct (respond env (trace w1) _).
      + apply (Hcopy _ (pre ++ [Ev (fs_mkdirSync (downloadDir (this w)) true)])).
        * rewrite trace_with_trace, Hw1, <- app_assoc. reflexivity.
        * rewrite existsb_app, Hpre. reflexivity.
      + exists (pre ++ [Ev (fs_mkdirSync (downloadDir (this w)) true)]).
        split; [simpl; rewrite Hw1, <- app_assoc; reflexivity | ].
        rewrite existsb_app, Hpre. reflexivity.
    - rewrite bind_ret. apply (Hcopy _ pre); assumption. }
  destruct (fs_existsSync env (trace w) (downloadDir (this w))); simpl negb;
    cbv iota.
  - rewrite bind_assoc, bind_call.
    destruct (respond env _ (fs_statSync_isDirectory _)) as [isDirectory | e].
    + rewrite bind_ret.
      apply (Hmk _ _ [EvExistsSync (downloadDir (this w));
                      Ev (fs_statSync_isDirectory (downloadDir (this w)))]).
      * rewrite !trace_with_trace, <- app_assoc. reflexivity.
      * reflexivity.
    + exists [EvExistsSync (downloadDir (this w));
              Ev (fs_statSync_isDirectory (downloadDir (this w)))].
      split; [simpl; rewrite <- app_assoc; reflexivity | reflexivity].
  - rewrite bind_ret.
    apply (Hmk _ _ [EvExistsSync (downloadDir (this w))]).
    + rewrite trace_with_trace. reflexivity.
    + reflexivity.
Qed.

(** X15: [waitForDownload] never waits past its timeout by more than the
    rest of one round.  For every behaviour of the file system it sleeps
    [k] times 100 ms, in [k] rounds of the loop at the start of the call,
    where [k >= 1] and a round after the first is begun only while
    [100 * (k - 1) < timeout]; nothing after the loop sleeps. *)
Theorem waitForDownload_sleeps_within_timeout :
  forall timeout env w,
    let t := match timeout with Some t => t | None => 5000 end in
    exists (k : nat) rest,
      issues (waitForDownload timeout) env w
        (polls k (tmpDir (this w)) ++ rest) /\
      existsb is_sleep rest = false /\
      (1 <= k)%nat /\
      (k = 1%nat \/ 100 * (Z.of_nat k - 1) < t).
Proof.
  intros timeout env w t. unfold issues.
  rewrite waitForDownload_loop. unfold loop_of. fold t.
  rewrite bind_assoc, bind_logger_debug.
  set (w0 := logged _ w).
  destruct (poll_bound_enough t) as [Hpos Hfuel].
  destruct (poll_rounds (poll_bound t) t 0 env w0 Hpos Hfuel)
    as (k & Ht & Hk & Hlow).
  change (tmpDir (this w0)) with (tmpDir (this w)) in Ht.
  change (trace w0) with (trace w) in Ht.
  assert (Hlow' : k = 1%nat \/ 100 * (Z.of_nat k - 1) < t)
    by (destruct Hlow as [-> | Hlow]; [left; reflexivity | right; lia]).
  unfold bind.
  destruct (poll (poll_bound t) t 0 env w0) as [[[downloadFile | ] | e] w1];
    simpl in Ht.
  - destruct (deliver_download_never_sleeps downloadFile env w1)
      as (rest & Hrest & Hnone).
    exists k, rest. split.
    + destruct (deliver_download downloadFile env w1) as [[path | e] w2];
        simpl in *; rewrite Hrest, Ht, <- app_assoc; reflexivity.
    + split; [exact Hnone | split; assumption].
  - exists k, []. split; [simpl; rewrite app_nil_r; exact Ht | ].
    split; [reflexivity | split; assumption].
  - exists k, []. split; [simpl; rewrite app_nil_r; exact Ht | ].
    split; [reflexivity | split; assumption].
Qed.

(** X16: when the staging directory cannot be listed (as before [run] has
    created it), [waitForDownload] raises the error of the listing after
    the first sleep, for every timeout, and touches nothing else. *)
Theorem waitForDownload_raises_listing_error :
  forall timeout env w e,
    respond env (trace w ++ [EvSleep 100]) (fs_readdirSync (tmpDir (this w)))
      = Throw e ->
    outcome (waitForDownload timeout) env w = Throw e /\
    issues (waitForDownload timeout) env w
      [EvSleep 100; Ev (fs_readdirSync (tmpDir (this w)))].
Proof.
  intros timeout env w e He. unfold outcome, issues.
  rewrite waitForDownload_loop. unfold loop_of, poll_bound.
  rewrite bind_assoc, bind_logger_debug. unfold bind.
  rewrite poll_step. cbv zeta. autorewrite with world.
  rewrite He. split; reflexivity.
Qed.

Lemma waitForDownload_raises_listing_error_witness :
  outcome (waitForDownload None) (env_failing listing_unreadable [] "")
    debug_world
    = Throw (LibError "ENOENT: no such file or directory, scandir") /\
  issues (waitForDownload None) (env_failing listing_unreadable [] "")
    debug_world [EvSleep 100; Ev (fs_readdirSync "")].
Proof.
  exact (waitForDownload_raises_listing_error None
           (env_failing listing_unreadable [] "") debug_world _ eq_refl).
Defined.

(** The loop ends at the first round whose listing starts with a completed
    file: after [j] rounds with a pending first entry, each begun before
    the timeout. *)
Lemma poll_ends_at_completed :
  forall (j fuel : nat) timeout elapsed env w names,
    (j < fuel)%nat ->
    (forall i : nat, (i < j)%nat ->
        exists earlier,
          respond env (trace w ++ polls i (tmpDir (this w)) ++ [EvSleep 100])
            (fs_readdirSync (tmpDir (this w))) = Return earlier /\
          pending (nth_error earlier 0) = true) ->
    (j = 0%nat \/ elapsed + 100 * Z.of_nat j < timeout) ->
    respond env (trace w ++ polls j (tmpDir (this w)) ++ [EvSleep 100])
      (fs_readdirSync (tmpDir (this w))) = Return names ->
    pending (nth_error names 0) = false ->
    exists w1,
      poll fuel timeout elapsed env w
        = (Return (Some (nth_error names 0)), w1) /\
      trace w1 = trace w ++ polls (S j) (tmpDir (this w)) /\
      this w1 = this w.
Proof.
  induction j as [ | j IH];
    intros fuel timeout elapsed env w names Hfuel Hearlier Htime Hnames Hdone.
  - destruct fuel as [ | fuel]; [inversion Hfuel | ].
    rewrite poll_step. cbv zeta. simpl in Hnames. rewrite Hnames.
    unfold still_waiting. rewrite Hdone, andb_false_r.
    eexists. split; [reflexivity | ]. split; [ | reflexivity].
    rewrite trace_with_trace, <- app_assoc. reflexivity.
  - destruct fuel as [ | fuel]; [inversion Hfuel | ].
    rewrite poll_step. cbv zeta.
    destruct (Hearlier 0%nat ltac:(lia)) as (first & Hfirst & Hpend).
    simpl in Hfirst. rewrite Hfirst.
    unfold still_waiting. rewrite Hpend, andb_true_r.
    assert (Hlt : (elapsed + 100 <? timeout) = true).
    { apply Z.ltb_lt. destruct Htime as [H0 | H]; [discriminate H0 | lia]. }
    rewrite Hlt.
    set (w1 := with_trace
                 ((trace w ++ [EvSleep 100]) ++
                  [Ev (fs_readdirSync (tmpDir (this w)))])
                 (with_trace (trace w ++ [EvSleep 100]) w)).
    assert (Hshift : forall i,
              trace w1 ++ polls i (tmpDir (this w)) ++ [EvSleep 100]
              = trace w ++ polls (S i) (tmpDir (this w)) ++ [EvSleep 100]).
    { intro i. unfold w1. rewrite trace_with_trace. simpl.
      rewrite <- !app_assoc. reflexivity. }
    destruct (IH fuel timeout (elapsed + 100) env w1 names) as
      (w2 & Hpoll & Htrace & Hthis).
    + lia.
    + intros i Hi. change (tmpDir (this w1)) with (tmpDir (this w)).
      rewrite Hshift. apply Hearlier. lia.
    + destruct Htime as [H0 | H]; [discriminate H0 | ].
      destruct j as [ | j']; [left; reflexivity | right; lia].
    + change (tmpDir (this w1)) with (tmpDir (this w)).
      rewrite Hshift. exact Hnames.
    + exact Hdone.
    + exists w2. split; [exact Hpoll | ]. split; [ | exact Hthis].
      rewrite Htrace. change (tmpDir (this w1)) with (tmpDir (this w)).
      unfold w1. rewrite trace_with_trace. simpl.
      rewrite <- !app_assoc. reflexivity.
Qed.

(** X17: the loop does not wait for the timeout once a file is there.  At
    whatever round the listing first starts with a name that is not empty
    and does not end in the partial suffix - after [j] rounds, each begun
    before the timeout, whose first entry was missing or partial - the
    loop ends in that round, after [j + 1] rounds in all, with this name. *)
Theorem loop_ends_at_first_completed_listing :
  forall timeout env w (j : nat) names,
    let limit := match timeout with Some t => t | None => 5000 end in
    let dir := tmpDir (this w) in
    (forall i : nat, (i < j)%nat ->
        exists earlier,
          respond env (trace w ++ polls i dir ++ [EvSleep 100])
            (fs_readdirSync dir) = Return earlier /\
          pending (nth_error earlier 0) = true) ->
    (j = 0%nat \/ 100 * Z.of_nat j < limit) ->
    respond env (trace w ++ polls j dir ++ [EvSleep 100]) (fs_readdirSync dir)
      = Return names ->
    pending (nth_error names 0) = false ->
    exists w1,
      loop_of timeout env w = (Return (Some (nth_error names 0)), w1) /\
      trace w1 = trace w ++ polls (S j) dir /\
      this w1 = this w.
Proof.
  intros timeout env w j names limit dir Hearlier Htime Hnames Hdone.
  unfold loop_of. fold limit. rewrite bind_logger_debug.
  apply (poll_ends_at_completed j (poll_bound limit) limit 0 env
           (logged ("waitForDownload: timeout=" ++ string_of_Z limit)%string w)
           names).
  - unfold poll_bound. destruct Htime as [-> | Hlt]; [lia | ].
    assert (H : Z.of_nat j <= limit / 100).
    { apply Z.div_le_lower_bound; lia. }
    lia.
  - exact Hearlier.
  - destruct Htime as [H0 | H]; [left; exact H0 | right; lia].
  - exact Hnames.
  - exact Hdone.
Qed.

Lemma loop_ends_at_first_completed_listing_witness :
  exists w1,
    loop_of (Some 60000) env_completing started_world
      = (Return (Some (Some "report.pdf")), w1) /\
    trace w1 = trace started_world ++ polls 3 "/app/temp" /\
    this w1 = this started_world.
Proof.
  refine (loop_ends_at_first_completed_listing (Some 60000) env_completing
            started_world 2 ["report.pdf"; "notes.txt"] _ _ eq_refl eq_refl).
  - intros i Hi. exists ["report.pdf.crdownload"; "notes.txt"].
    destruct i as [ | [ | i]]; [split; reflexivity | split; reflexivity | lia].
  - right. reflexivity.
Defined.

(** X18: while the staging directory stays empty, [waitForDownload] polls
    until the timeout and returns [undefined]; it makes no call on the
    destination directory: nothing is tested, created or copied. *)
Theorem waitForDownload_empty_directory :
  forall timeout env w,
    (forall t, respond env t (fs_readdirSync (tmpDir (this w))) = Return []) ->
    let limit := match timeout with Some t => t | None => 5000 end in
    exists k : nat,
      outcome (waitForDownload timeout) env w = Return (Some None) /\
      issues (waitForDownload timeout) env w (polls k (tmpDir (this w))) /\
      (1 <= k)%nat /\
      limit <= 100 * Z.of_nat k /\
      (k = 1%nat \/ 100 * (Z.of_nat k - 1) < limit).
Proof.
  intros timeout env w Hempty limit. unfold outcome, issues.
  rewrite waitForDownload_loop. unfold loop_of. fold limit.
  rewrite bind_assoc, bind_logger_debug.
  set (w0 := logged _ w).
  destruct (poll_bound_enough limit) as [Hpos Hfuel].
  destruct (poll_runs_out (poll_bound limit) limit 0 env w0) as
    (k & names & w1 & Hpoll & [t' Hans] & Htrace & _ & Hk & Hup & Hlow).
  - intro t0. exists []. split; [apply Hempty | reflexivity].
  - exact Hpos.
  - exact Hfuel.
  - change (tmpDir (this w0)) with (tmpDir (this w)) in Hans, Htrace.
    change (trace w0) with (trace w) in Htrace.
    rewrite Hempty in Hans. injection Hans as <-.
    rewrite (bind_Return _ _ _ _ env w0 _ w1 Hpoll).
    exists k. split; [reflexivity | ]. split; [exact Htrace | ].
    split; [exact Hk | ]. split; [lia | ].
    destruct Hlow as [-> | Hlow]; [left; reflexivity | right; lia].
Qed.

Lemma waitForDownload_empty_directory_witness :
  exists k : nat,
    outcome (waitForDownload None) (env_ok [] "") started_world
      = Return (Some None) /\
    issues (waitForDownload None) (env_ok [] "") started_world
      (polls k "/app/temp") /\
    (1 <= k)%nat /\
    5000 <= 100 * Z.of_nat k /\
    (k = 1%nat \/ 100 * (Z.of_nat k - 1) < 5000).
Proof.
  exact (waitForDownload_empty_directory None (env_ok [] "") started_world
           (fun _ => eq_refl)).
Defined.

(** X19: when the destination directory is absent and cannot be created,
    [waitForDownload] raises the error of the creation and copies nothing;
    the downloaded file stays in the staging directory. *)
Theorem waitForDownload_raises_mkdir_error :
  forall timeout env w name w1 e,
    loop_of timeout env w = (Return (Some (Some name)), w1) ->
    falsy (Some name) = false ->
    let dir := downloadDir (this w) in
    fs_existsSync env (trace w1) dir = false ->
    respond env (trace w1 ++ [EvExistsSync dir]) (fs_mkdirSync dir true)
      = Throw e ->
    outcome (waitForDownload timeout) env w = Throw e /\
    trace (snd (waitForDownload timeout env w)) =
      trace w1 ++ [EvExistsSync dir; Ev (fs_mkdirSync dir true)].
Proof.
  intros timeout env w name w1 e Hloop Hname dir Habsent Hmkdir.
  assert (Hthis : this w1 = this w).
  { pose proof (loop_of_this timeout env w) as H. rewrite Hloop in H.
    exact H. }
  unfold outcome. rewrite waitForDownload_loop.
  rewrite (bind_Return _ _ _ _ env w _ w1 Hloop).
  unfold deliver_download. rewrite Hname.
  rewrite bind_assoc, bind_get_this, bind_assoc, bind_existsSync.
  rewrite Hthis. fold dir. rewrite Habsent. simpl negb. cbv iota.
  rewrite bind_assoc, bind_ret. unfold when.
  rewrite bind_assoc, bind_call. autorewrite with world.
  rewrite Hmkdir. split; reflexivity.
Qed.

Lemma waitForDownload_raises_mkdir_error_witness :
  outcome (waitForDownload (Some 300)) (env_blocked ["report.pdf"])
    started_world
  = Throw (LibError "EEXIST: file already exists, mkdir").
Proof.
  exact (proj1 (waitForDownload_raises_mkdir_error (Some 300)
                  (env_blocked ["report.pdf"]) started_world "report.pdf"
                  (snd (loop_of (Some 300) (env_blocked ["report.pdf"])
                          started_world))
                  (LibError "EEXIST: file already exists, mkdir")
                  eq_refl eq_refl eq_refl eq_refl)).
Defined.

(** ** [readUserInput]: the echo and the callbacks *)

Lemma echoes_cons :
  forall mask ev evs,
    echoes mask (ev :: evs) =
    match ev with
    | WriteToOutput s => [if mask && test_word s then "*" else s]
    | _ => []
    end ++ echoes mask evs.
Proof. reflexivity. Qed.

Lemma deliver_output :
  forall ev p env w,
    exists p' w',
      deliver ev p env w = (Return p', w') /\
      masked p' = masked p /\
      output p' = output p ++ echoes (masked p) [ev].
Proof.
  intros [ | answer | s] p env w; unfold deliver, echoes; simpl.
  - destruct (timer p).
    + eexists; eexists. split; [reflexivity | ].
      unfold resolve, timer_done. simpl.
      destruct (settled p); simpl; rewrite app_nil_r; split; reflexivity.
    + eexists; eexists. split; [reflexivity | ].
      rewrite app_nil_r. split; reflexivity.
  - destruct (closed p).
    + eexists; eexists. split; [reflexivity | ].
      rewrite app_nil_r. split; reflexivity.
    + eexists; eexists. split; [reflexivity | ].
      unfold resolve.
      destruct (settled p); simpl; rewrite app_nil_r; split; reflexivity.
  - eexists; eexists. split; [reflexivity | ]. split; reflexivity.
Qed.

Lemma deliver_all_output :
  forall evs p env w,
    exists p' w',
      deliver_all evs p env w = (Return p', w') /\
      masked p' = masked p /\
      output p' = output p ++ echoes (masked p) evs.
Proof.
  induction evs as [ | ev evs IH]; intros p env w.
  - exists p, w. split; [reflexivity | ]. split; [reflexivity | ].
    symmetry. apply app_nil_r.
  - destruct (deliver_output ev p env w) as (p1 & w1 & Hd & Hm & Ho).
    destruct (IH p1 env w1) as (p2 & w2 & Hd2 & Hm2 & Ho2).
    exists p2, w2. split.
    + simpl. rewrite (bind_Return _ _ _ _ env w p1 w1 Hd). exact Hd2.
    + split; [congruence | ].
      rewrite Ho2, Ho, Hm, <- app_assoc, (echoes_cons _ ev evs).
      rewrite (echoes_cons _ ev []), app_nil_r. reflexivity.
Qed.

Lemma echoes_hide_typing :
  forall evs, forallb hides_typing (echoes true evs) = true.
Proof.
  induction evs as [ | ev evs IH]; [reflexivity | ].
  rewrite echoes_cons, forallb_app, IH, andb_true_r.
  destruct ev as [ | answer | s]; try reflexivity.
  unfold hides_typing. simpl.
  destruct (test_word s) eqn:Hs; simpl; [reflexivity | ].
  rewrite Hs. simpl. rewrite orb_true_r. reflexivity.
Qed.

(** X20: what the replaced [_writeToOutput] of line 135 writes.  Whatever
    events follow the call, the output grows by one entry for each text
    the line reader echoes and by nothing for the timer and the answer.
    For a password prompt a text that holds a character of [A-Za-z0-9_]
    is written as one star, and any other text, such as one made of
    non-ASCII letters only, is written as it is; for a prompt that is not
    a password every text is written as it is. *)
Theorem password_echo_masks_ascii_word_text :
  forall question password timeout env w evs,
    exists p w0 p' w',
      readUserInput question password timeout env w = (Return p, w0) /\
      deliver_all evs p env w0 = (Return p', w') /\
      let mask := match password with Some b => b | None => false end in
      output p' = output p ++ echoes mask evs /\
      (mask = true ->
       forallb hides_typing (echoes mask evs) = true /\
       (forall s, test_word s = true ->
                  echoes mask [WriteToOutput s] = ["*"]) /\
       (forall s, test_word s = false ->
                  echoes mask [WriteToOutput s] = [s])) /\
      (mask = false ->
       echoes mask evs =
         flat_map (fun ev => match ev with
                             | WriteToOutput s => [s]
                             | _ => []
                             end) evs).
Proof.
  intros question password timeout env w evs.
  assert (Hstart : exists p w0,
            readUserInput question password timeout env w = (Return p, w0) /\
            masked p = match password with Some b => b | None => false end).
  { eexists. eexists. split; reflexivity. }
  destruct Hstart as (p & w0 & Hrun & Hmask).
  destruct (deliver_all_output evs p env w0) as (p' & w' & Hd & _ & Ho).
  exists p, w0, p', w'. split; [exact Hrun | ]. split; [exact Hd | ].
  cbv zeta. rewrite <- Hmask. split; [exact Ho | ]. split.
  - intros ->. split; [apply echoes_hide_typing | ]. split.
    + intros s Hs. rewrite echoes_cons, Hs. reflexivity.
    + intros s Hs. rewrite echoes_cons, Hs. reflexivity.
  - intros ->. reflexivity.
Qed.

Lemma password_echo_masks_ascii_word_text_witness :
  exists p w0 p' w',
    readUserInput "Password: " (Some true) None (env_ok [] "") debug_world
      = (Return p, w0) /\
    deliver_all [WriteToOutput "h"; WriteToOutput e_acute; Answer "h"] p
      (env_ok [] "") w0 = (Return p', w') /\
    output p' = output p ++ ["*"; e_acute] /\
    echoes true [WriteToOutput e_acute] = [e_acute].
Proof.
  destruct (password_echo_masks_ascii_word_text "Password: " (Some true) None
              (env_ok [] "") debug_world
              [WriteToOutput "h"; WriteToOutput e_acute; Answer "h"])
    as (p & w0 & p' & w' & Hrun & Hd & Ho & Hmasked & _).
  exists p, w0, p', w'.
  split; [exact Hrun | ]. split; [exact Hd | ]. split; [exact Ho | ].
  destruct (Hmasked eq_refl) as (_ & _ & Hclear).
  exact (Hclear e_acute eq_refl).
Defined.

(** X21: the timer is never cleared and the line reader is closed by the
    answer only.  After an answer the timer still fires later and prints
    "timeout", though the promise keeps the answer; and after a timeout the
    line reader stays open, and a line typed then closes it without
    changing the empty result. *)
Theorem answer_does_not_cancel_timer :
  forall question password timeout answer env w,
    exists p w0,
      readUserInput question password timeout env w = (Return p, w0) /\
      closed p = false /\
      (exists p' w',
          deliver_all [Answer answer; TimerFires] p env w0 = (Return p', w') /\
          settled p' = Some answer /\
          closed p' = true /\
          timer p' = None /\
          console w' = console w ++ ["timeout"]) /\
      (exists p1 w1 p2 w2,
          deliver_all [TimerFires] p env w0 = (Return p1, w1) /\
          settled p1 = Some "" /\
          closed p1 = false /\
          console w1 = console w ++ ["timeout"] /\
          deliver_all [Answer answer] p1 env w1 = (Return p2, w2) /\
          settled p2 = Some "" /\
          closed p2 = true).
Proof.
  intros question password timeout answer env w.
  eexists. eexists. split.
  - unfold readUserInput. rewrite bind_logger_debug. reflexivity.
  - split; [reflexivity | ]. split.
    + eexists. eexists. split; [reflexivity | ]. repeat split.
    + eexists. eexists. eexists. eexists.
      split; [reflexivity | ]. repeat split.
Qed.

(** ** [run]: a dump that fails *)

(** X22: an error inside the [catch] clause hides the error of the crawl
    step.  When the crawl step throws with a non-empty dump path and the
    page cannot give its markup, or the dump file cannot be written, [run]
    raises that later error; the console line is not printed; and the
    browser is closed all the same. *)
Theorem run_dump_failure_hides_crawl_error :
  forall (C : Crawl) env w b w_s e w_c p,
    run_setup env w = (Return b, w_s) ->
    crawl_step env w_s = (Throw e, w_c) ->
    truthy (errorDump (this w_c)) = true ->
    page (this w_c) = Some p ->
    let dump := errorDump (this w_c) in
    (forall e',
        respond env (trace w_c) (page_content p) = Throw e' ->
        respond env (trace w_c ++ [Ev (page_content p)]) (browser_close b)
          = Return tt ->
        outcome run env w = Throw e' /\
        trace (snd (run env w)) =
          trace w_c ++ [Ev (page_content p); Ev (browser_close b)] /\
        console (snd (run env w)) = console w_c) /\
    (forall markup e',
        respond env (trace w_c) (page_content p) = Return markup ->
        respond env (trace w_c ++ [Ev (page_content p)])
          (fs_writeFileSync dump markup) = Throw e' ->
        respond env
          ((trace w_c ++ [Ev (page_content p)]) ++
           [Ev (fs_writeFileSync dump markup)]) (browser_close b)
          = Return tt ->
        outcome run env w = Throw e' /\
        trace (snd (run env w)) =
          trace w_c ++ [Ev (page_content p);
                        Ev (fs_writeFileSync dump markup);
                        Ev (browser_close b)] /\
        console (snd (run env w)) = console w_c).
Proof.
  intros C env w b w_s e w_c p Hs Hc Hd Hp dump.
  unfold outcome, run.
  rewrite (bind_Return _ _ _ _ env w b w_s Hs).
  unfold run_guarded, try_finally, try_catch. rewrite Hc.
  unfold run_catch.
  rewrite bind_get_this, Hd, bind_assoc.
  rewrite (bind_this_page _ _ _ _ p) by exact Hp.
  rewrite bind_assoc, bind_call. fold dump.
  split.
  - intros e' Hcontent Hclose. rewrite Hcontent. unfold call.
    autorewrite with world. rewrite Hclose.
    split; [reflexivity | ]. split; reflexivity.
  - intros markup e' Hcontent Hwrite Hclose. rewrite Hcontent.
    cbv beta iota. run_steps. rewrite bind_call. autorewrite with world.
    rewrite Hwrite. unfold call. autorewrite with world.
    rewrite <- app_one_cons, Hclose.
    split; [reflexivity | ]. split; [ | reflexivity].
    simpl. rewrite <- !app_assoc. reflexivity.
Qed.

Lemma run_dump_failure_hides_crawl_error_witness :
  outcome (@run crawl_fails) (env_failing content_unavailable [] "<html>")
    debug_world = Throw (LibError "Target closed") /\
  console (snd (@run crawl_fails
                  (env_failing content_unavailable [] "<html>") debug_world))
    = [].
Proof.
  destruct (run_dump_failure_hides_crawl_error crawl_fails
              (env_failing content_unavailable [] "<html>") debug_world
              1%nat _ _ _ 7%nat eq_refl eq_refl eq_refl eq_refl)
    as [Hcontent _].
  destruct (Hcontent (LibError "Target closed") eq_refl eq_refl)
    as (Ho & _ & Hconsole).
  split; [exact Ho | exact Hconsole].
Defined.
